(** * Hydration and channel resolution of the Corteza JavaScript library

    A shallow embedding of
    - [src/corredor/helpers/messaging.ts]: the channel resolver and the
      direct-channel helper of [MessagingHelper];
    - [src/compose/types/page.ts], [namespace.ts], [module-field.ts]:
      entities that hydrate themselves from raw objects through [Apply];
    followed by the properties the specification states about them.

    Layout: JavaScript values, the collaborators that live outside of the
    embedded files (as type classes), the embedded functions, reference
    instances of the collaborators, and then the theorems. *)

From stdpp Require Import base strings list gmap pretty.
From Stdlib Require Import ZArith Lia.

#[local] Set Warnings "-register-all".
#[local] Open Scope string_scope.
#[local] Open Scope list_scope.

(* ===================================================================== *)
(** * JavaScript values *)
(* ===================================================================== *)

(** A JavaScript [Error] object, identified by its message. *)
Inductive error : Type := Error (message : string).

(** A computation that either returns a value or throws. *)
Definition result (A : Type) : Type := (A + error)%type.

(** The values that reach the embedded code: JSON-like payloads, instances
    of the [Channel] class (told apart by [instanceof]), and promises,
    represented by the way they settle.  An object is the list of its
    properties; on a duplicated name the first entry is the property.
    Numbers are kept as integers ([NaN] and fractions are not represented);
    the embedded code only tests numbers for being zero or hands them to
    [Number].  A [Date] is the value [ISO8601Date] answers with. *)
Inductive value : Type :=
| VUndefined
| VNull
| VBool (b : bool)
| VNumber (n : Z)
| VString (s : string)
| VArray (items : list value)
| VObject (props : list (string * value))
| VChannel (props : list (string * value))
| VFulfilled (v : value)
| VRejected (e : error).

(** The properties of a [Channel] instance. *)
Definition Channel : Type := list (string * value).

(** [Boolean(v)], that is [!!v]. *)
Definition truthy (v : value) : bool :=
  match v with
  | VUndefined | VNull => false
  | VBool b => b
  | VNumber n => negb (n =? 0)%Z
  | VString s => negb (String.eqb s "")
  | _ => true
  end.

(** [typeof v === 'object'] *)
Definition typeof_object (v : value) : bool :=
  match v with
  | VNull | VArray _ | VObject _ | VChannel _ | VFulfilled _ | VRejected _ => true
  | _ => false
  end.

(** [v === undefined] *)
Definition is_undefined (v : value) : bool :=
  match v with
  | VUndefined => true
  | _ => false
  end.

Fixpoint lookup_prop (k : string) (props : list (string * value)) : value :=
  match props with
  | [] => VUndefined
  | (k', v) :: rest => if String.eqb k' k then v else lookup_prop k rest
  end.

(** [o[k]] for a property name [k] of an entity or of a channel: the
    property of an object, [undefined] on every other value (no such name
    is inherited from a built-in prototype). *)
Definition getProp (o : value) (k : string) : value :=
  match o with
  | VObject props | VChannel props => lookup_prop k props
  | _ => VUndefined
  end.

(** [await v]: a promise is replaced by the value it fulfils with, a
    rejection is thrown, any other value stays. *)
Fixpoint await (v : value) : result value :=
  match v with
  | VFulfilled v' => await v'
  | VRejected e => inr e
  | _ => inl v
  end.

(** Continuation forms of the property lookup: they let a function that
    recurses into a property stay structurally recursive. *)
Definition ownPropK {A} (k : string) (K : value -> A) (absent : A)
  : list (string * value) -> A :=
  fix go props :=
    match props with
    | [] => absent
    | (k', v) :: rest => if String.eqb k' k then K v else go rest
    end.

Definition propK {A} (k : string) (K : value -> A) (absent : A) (o : value) : A :=
  match o with
  | VObject props | VChannel props => ownPropK k K absent props
  | _ => absent
  end.

(** [{ ...v }]: the own enumerable properties of [v] in a fresh object. *)
Definition indexed (items : list value) : list (string * value) :=
  imap (fun i v => (pretty i, v)) items.

Fixpoint chars (s : string) : list value :=
  match s with
  | EmptyString => []
  | String a s' => VString (String a EmptyString) :: chars s'
  end.

Definition spread (v : value) : value :=
  match v with
  | VObject props | VChannel props => VObject props
  | VArray items => VObject (indexed items)
  | VString s => VObject (indexed (chars s))
  | _ => VObject []
  end.

(* ===================================================================== *)
(** * Collaborators outside of the embedded files *)
(* ===================================================================== *)

(** Modelled from the spec: the module [cast], which is not among the
    embedded files.  [NoID] is the sentinel "unsaved" identifier;
    [CortezaID] normalises an identifier representation and maps falsy or
    invalid input to the sentinel; [ISO8601Date] accepts a date, a
    timestamp or an ISO-8601 string and returns [undefined] for falsy
    input; [IsCortezaID] is the identifier-shape test on strings.  They are
    kept abstract; as described, a coercer is a function of the input
    value. *)
Class Cast : Type := {
  NoID : value;
  CortezaID : value -> value;
  ISO8601Date : value -> value;
  IsCortezaID : string -> bool;
}.

(** The built-in conversions [String] and [Number] of the JavaScript
    runtime, functions of their first argument. *)
Class Builtins : Type := {
  JSString : value -> value;
  JSNumber : value -> value;
}.

(** The module [corredor/helpers/shared], which is not among the embedded
    files: [extractID(value, key)] returns an identifier or throws,
    [isFresh] tests an identifier for being unsaved and [kv] turns an
    object into the payload of a request.  They are kept abstract. *)
Class Shared : Type := {
  extractID : value -> string -> result string;
  isFresh : value -> bool;
  kv : value -> value;
}.

(** The constructor of the [Channel] class, [new Channel(raw)], kept
    abstract; it returns the instance or throws. *)
Class ChannelClass : Type := {
  newChannel : value -> result Channel;
}.

(** The page blocks ([./page-block], whose base class is not among the
    embedded files): the instances and their [validate], kept abstract. *)
Class PageBlockClass : Type := {
  PageBlock : Type;
  PageBlock_validate : PageBlock -> list string;
}.

(* ===================================================================== *)
(** * Messaging helper ([src/corredor/helpers/messaging.ts]) *)
(* ===================================================================== *)

Module Messaging.

(** Observable steps of a call: the values the resolver awaits, in order,
    and the requests sent to the remote Messaging API. *)
Inductive event : Type :=
| Awaited (c : value)
| ChannelRead (channelID : string)
| ChannelCreate (payload : value)
| ChannelUpdate (payload : value).

(** An [async] method: the events it produces and how its promise settles
    ([inl]: fulfilled, [inr]: rejected). *)
Definition M (A : Type) : Type := (list event * result A)%type.

Definition ret {A} (a : A) : M A := ([], inl a).
Definition throw {A} (e : error) : M A := ([], inr e).
Definition tell (ev : event) : M unit := ([ev], inl tt).
Definition lift {A} (r : result A) : M A := ([], r).
Definition bind {A B} (m : M A) (k : A -> M B) : M B :=
  match m with
  | (t, inl a) => let '(t', r) := k a in (t ++ t', r)
  | (t, inr e) => (t, inr e)
  end.

Notation "x <- m ;; k" := (bind m (fun x => k))
  (at level 100, m at next level, right associativity).
Notation "m ;;; k" := (bind m (fun _ => k))
  (at level 100, right associativity).

(** The trace and the outcome of a settled call. *)
Definition trace {A} (m : M A) : list event := fst m.
Definition outcome {A} (m : M A) : result A := snd m.

(** The continuation form of [await]. *)
Definition awaitK {A} (K : value -> M A) : value -> M A :=
  fix go c :=
    match c with
    | VFulfilled v => go v
    | VRejected e => throw e
    | _ => K c
    end.

(** The remote Messaging API client: every operation answers a request
    with a raw object or fails.  A call of the helper sends at most one
    request, so an operation is the function from the request to its
    answer. *)
Record MessagingAPI : Type := {
  channelRead : string -> result value;
  channelCreate : value -> result value;
  channelUpdate : value -> result value;
}.

(** [MessagingContext], the fields of a [MessagingHelper]. *)
Record MessagingHelper : Type := {
  API : MessagingAPI;
  authUser : value;       (* [$authUser] *)
  channel : value;        (* [$channel] *)
}.

(** ** [findChannelByID] (lines 103-106) *)
Definition findChannelByID `{!Shared, !ChannelClass}
  (this : MessagingHelper) (channel : value) : M Channel :=
  channelID <- lift (extractID channel "channelID") ;;
  tell (ChannelRead channelID) ;;;
  r <- lift (channelRead (API this) channelID) ;;
  lift (newChannel r).

(** ** [saveChannel] (lines 143-151) *)
Definition saveChannel `{!Shared, !ChannelClass}
  (this : MessagingHelper) (channel : value) : M Channel :=
  awaitK (fun channel =>
    match channel with
    | VUndefined | VNull =>
        throw (Error "TypeError: cannot read properties of undefined")
    | _ =>
        if isFresh (getProp channel "channelID") then
          tell (ChannelCreate (kv channel)) ;;;
          r <- lift (channelCreate (API this) (kv channel)) ;;
          lift (newChannel r)
        else
          tell (ChannelUpdate (kv channel)) ;;;
          r <- lift (channelUpdate (API this) (kv channel)) ;;
          lift (newChannel r)
    end) channel.

(** ** [directChannel] (lines 114-128) *)
Definition selfError : error := Error "can not send message to self".

(** The default value of the parameter [second] is [this.$authUser]. *)
Definition second_or_default (this : MessagingHelper) (second : value) : value :=
  match second with
  | VUndefined => authUser this
  | _ => second
  end.

Definition directChannel `{!Shared, !ChannelClass}
  (this : MessagingHelper) (first second : value) : M Channel :=
  let second := second_or_default this second in
  firstUserID <- lift (extractID first "userID") ;;
  secondUserID <- lift (extractID second "userID") ;;
  if String.eqb firstUserID secondUserID then
    throw selfError
  else
    saveChannel this
      (VObject [("type", VString "group");
                ("members", VArray [VString firstUserID; VString secondUserID])]).

(** ** [resolveChannel] (lines 182-215) *)
Definition genericError : error :=
  Error "unexpected input type for channel resolver".

(** [typeof c === 'string' && IsCortezaID(c)] *)
Definition is_id_string `{!Cast} (c : value) : bool :=
  match c with
  | VString s => IsCortezaID s
  | _ => false
  end.

(** The [for (let c of args)] loop around a body; the body answers [None]
    for [continue] and [Some ch] for [return ch].  Falling off the loop
    rejects with the generic error (line 214). *)
Definition forOf (body : value -> M (option Channel)) : list value -> M Channel :=
  fix go args :=
    match args with
    | [] => throw genericError
    | c :: rest =>
        tell (Awaited c) ;;;
        r <- body c ;;
        match r with
        | Some ch => ret ch
        | None => go rest
        end
    end.

Definition continue : M (option Channel) := ret None.
Definition returns (m : M Channel) : M (option Channel) :=
  ch <- m ;; ret (Some ch).

(** The loop body, lines 185-211.  The recursive call
    [this.resolveChannel(channelID)] of line 211 runs the same loop over
    the one-element list [[channelID]]; where the object has no [channelID]
    the argument is [undefined], on which the body can only [continue]. *)
Fixpoint turn `{!Cast, !Shared, !ChannelClass}
  (this : MessagingHelper) (c : value) : M (option Channel) :=
  awaitK (fun c =>                                                (* 185 *)
    if negb (truthy c) then continue                              (* 187 *)
    else if is_id_string c then returns (findChannelByID this c)  (* 191 *)
    else if negb (typeof_object c) then continue                  (* 198 *)
    else
      match c with
      | VChannel ch => ret (Some ch)                              (* 202 *)
      | VObject props =>                                          (* 208 *)
          ownPropK "channelID"
            (fun channelID => returns (forOf (turn this) [channelID]))
            (returns (forOf (fun _ => continue) [VUndefined]))
            props
      | _ => returns (forOf (fun _ => continue) [VUndefined])
      end) c.

Definition resolveChannel `{!Cast, !Shared, !ChannelClass}
  (this : MessagingHelper) (args : list value) : M Channel :=
  forOf (turn this) args.

(** The loop body on an awaited candidate as the source writes it, the
    call of line 211 being the resolver itself ([turn_unfold] below shows
    that this is what [turn] runs). *)
Definition settled_turn `{!Cast, !Shared, !ChannelClass}
  (this : MessagingHelper) (c : value) : M (option Channel) :=
  if negb (truthy c) then continue
  else if is_id_string c then returns (findChannelByID this c)
  else if negb (typeof_object c) then continue
  else
    match c with
    | VChannel ch => ret (Some ch)
    | _ => returns (resolveChannel this [getProp c "channelID"])
    end.

(** ** Candidates the loop walks past *)

(** A candidate that, once awaited, is falsy or is a string that does not
    look like an identifier. *)
Definition unresolvable `{!Cast} (c : value) : bool :=
  match await c with
  | inl v =>
      negb (truthy v)
      || match v with VString s => negb (IsCortezaID s) | _ => false end
  | inr _ => false
  end.

(** A candidate on which the loop body executes [continue]: falsy, or
    neither an identifier-shaped string nor an object. *)
Definition skipped `{!Cast} (c : value) : bool :=
  match await c with
  | inl v => negb (truthy v) || (negb (is_id_string v) && negb (typeof_object v))
  | inr _ => false
  end.

(** [c instanceof Channel] *)
Definition is_channel (c : value) : bool :=
  match c with
  | VChannel _ => true
  | _ => false
  end.

End Messaging.

(* ===================================================================== *)
(** * Compose entities ([src/compose/types]) *)
(* ===================================================================== *)

Module Compose.

(** ** Structural guards (module [guards]) *)

(** Modelled from the spec: [IsOf] of the module [guards], which is not
    among the embedded files.  True iff the value is a non-null object and
    has an own, defined property with that name. *)
Definition IsOf (v : value) (propertyName : string) : bool :=
  match v with
  | VObject props | VChannel props =>
      negb (is_undefined (lookup_prop propertyName props))
  | _ => false
  end.

(** Modelled from the spec: [AreObjectsOf] of the module [guards].  True iff
    every element of the array independently satisfies [IsOf]; a value that
    is no array has no elements to construct from and fails the guard. *)
Definition AreObjectsOf (a : value) (propertyName : string) : bool :=
  match a with
  | VArray items => forallb (fun v => IsOf v propertyName) items
  | _ => false
  end.

(** ** The Apply engine (module [cast]) *)

(** The fields of an entity, by name. *)
Abbreviation Fields := (gmap string value).

(** [this[k]] *)
Definition field (this : Fields) (k : string) : value :=
  default VUndefined (this !! k).

(** Modelled from the spec: [Apply(target, source, coerce, ...fieldNames)]
    of the module [cast].  For each field name, if [source[fieldName]] is
    present (not [undefined]), [coerce(source[fieldName], target[fieldName])]
    is assigned to [target[fieldName]]; otherwise the field is left as it
    is. *)
Definition Apply (target : Fields) (source : value)
  (coerce : value -> value -> value) (fieldNames : list string) : Fields :=
  foldl (fun target fieldName =>
           if is_undefined (getProp source fieldName) then target
           else <[fieldName := coerce (getProp source fieldName)
                                      (field target fieldName)]> target)
        target fieldNames.

(** The standard coercers take the input value and ignore the existing
    one. *)
Definition coerceID `{!Cast} : value -> value -> value :=
  fun v _ => CortezaID v.
Definition coerceDate `{!Cast} : value -> value -> value :=
  fun v _ => ISO8601Date v.
Definition coerceString `{!Builtins} : value -> value -> value :=
  fun v _ => JSString v.
Definition coerceNumber `{!Builtins} : value -> value -> value :=
  fun v _ => JSNumber v.
Definition coerceBoolean : value -> value -> value :=
  fun v _ => VBool (truthy v).

(** ** The variant registry ([./page-block]) *)

(** The state of the process-wide registry: discriminant to constructor.
    A constructor may throw. *)
Abbreviation Registry := (gmap string (value -> result PageBlock)).

(** [Registry.set(kind, constructor)]: the last registration of a kind
    wins. *)
Definition Registry_set `{!PageBlockClass} (kind : string)
  (ctor : value -> result PageBlock) (reg : Registry) : Registry :=
  <[kind := ctor]> reg.

Definition unknownKind : error := Error "unknown block kind".

(** Modelled from the spec: [PageBlockMaker] of [./page-block].  It reads
    the [kind] field of the raw object, finds the matching constructor and
    invokes it with the raw object; construction from an unregistered
    discriminant fails with a distinguishable error. *)
Definition PageBlockMaker `{!PageBlockClass} (reg : Registry) (b : value)
  : result PageBlock :=
  match getProp b "kind" with
  | VString kind =>
      match reg !! kind with
      | Some ctor => ctor b
      | None => inr unknownKind
      end
  | _ => inr unknownKind
  end.

(** [items.map(f)] where [f] may throw: elements are converted in order and
    the first exception ends the walk. *)
Definition mapR {A B} (f : A -> result B) : list A -> result (list B) :=
  fix go items :=
    match items with
    | [] => inl []
    | x :: rest =>
        match f x with
        | inr e => inr e
        | inl y =>
            match go rest with
            | inr e => inr e
            | inl ys => inl (y :: ys)
            end
        end
    end.

(** ** [Page] ([page.ts]) *)

Inductive Page `{!PageBlockClass} : Type := mkPage {
  fields : Fields;                    (* the scalar fields, lines 16-26, 32-38 *)
  blocks : list PageBlock;            (* line 30 *)
  children : option (list Page);      (* line 28: [undefined] until set *)
}.

Arguments mkPage {_} fields blocks children.
Arguments fields {_} p.
Arguments blocks {_} p.
Arguments children {_} p.

Definition with_fields `{!PageBlockClass} (f : Fields -> Fields) (p : Page) : Page :=
  mkPage (f (fields p)) (blocks p) (children p).
Definition set_blocks `{!PageBlockClass} (bs : list PageBlock) (p : Page) : Page :=
  mkPage (fields p) bs (children p).
Definition set_children `{!PageBlockClass} (cs : list Page) (p : Page) : Page :=
  mkPage (fields p) (blocks p) (Some cs).

(** The field initialisers of the class, lines 16-38. *)
Definition Page_default `{!Cast, !PageBlockClass} : Page :=
  mkPage
    (list_to_map
       [("pageID", NoID); ("selfID", NoID); ("moduleID", NoID);
        ("namespaceID", NoID);
        ("title", VString ""); ("handle", VString "");
        ("description", VString ""); ("weight", VNumber 0);
        ("visible", VBool false);
        ("createdAt", VUndefined); ("updatedAt", VUndefined);
        ("deletedAt", VUndefined);
        ("canUpdatePage", VBool false); ("canDeletePage", VBool false);
        ("canGrant", VBool false)])
    [] None.

(** A method body that may throw part-way: the state of [this] it leaves
    behind and the exception, if any. *)
Definition Run `{!PageBlockClass} : Type := (Page * option error)%type.

(** Lines 51-54. *)
Definition apply_scalars `{!Cast, !Builtins} (this : Fields) (i : value) : Fields :=
  let this := Apply this i coerceID ["pageID"; "selfID"; "moduleID"; "namespaceID"] in
  let this := Apply this i coerceString ["title"; "handle"; "description"] in
  let this := Apply this i coerceNumber ["weight"] in
  Apply this i coerceBoolean ["visible"].

(** Lines 56-61. *)
Definition apply_blocks `{!PageBlockClass} (reg : Registry) (this : Page) (i : value) : Run :=
  let blocks := getProp i "blocks" in
  if truthy blocks then
    let this := set_blocks [] this in
    if AreObjectsOf blocks "kind" && AreObjectsOf blocks "xywh" then
      match blocks with
      | VArray items =>
          match mapR (PageBlockMaker reg) items with
          | inl bs => (set_blocks bs this, None)
          | inr e => (this, Some e)
          end
      | _ => (this, None)
      end
    else (this, None)
  else (this, None).

(** Lines 63-68, with [new Page(c)] as the parameter [mk]. *)
Definition apply_children `{!PageBlockClass} (mk : value -> result Page)
  (this : Page) (i : value) : Run :=
  propK "children" (fun children =>
    if truthy children then
      let this := set_children [] this in
      if AreObjectsOf children "pageID" then
        match children with
        | VArray items =>
            match mapR mk items with
            | inl cs => (set_children cs this, None)
            | inr e => (this, Some e)
            end
        | _ => (this, None)
        end
      else (this, None)
    else (this, None)) (this, None) i.

(** Lines 70-75. *)
Definition apply_stamps `{!Cast} (this : Fields) (i : value) : Fields :=
  let this := Apply this i coerceDate ["createdAt"; "updatedAt"; "deletedAt"] in
  Apply this i coerceBoolean ["canUpdatePage"; "canDeletePage"; "canGrant"].

(** [Page.apply] (lines 48-76), with [new Page(c)] as the parameter [mk]. *)
Definition Page_apply_with `{!Cast, !Builtins, !PageBlockClass}
  (reg : Registry) (mk : value -> result Page) (this : Page) (i : value) : Run :=
  if negb (truthy i) then (this, None)
  else
    let this := with_fields (fun f => apply_scalars f i) this in
    match apply_blocks reg this i with
    | (this, Some e) => (this, Some e)
    | (this, None) =>
        match apply_children mk this i with
        | (this, Some e) => (this, Some e)
        | (this, None) =>
            (with_fields (fun f => apply_stamps f i) this, None)
        end
    end.

(** [new Page(i)] (lines 40-42): the defaults, then [apply]; an exception
    of [apply] leaves no page. *)
Fixpoint Page_new `{!Cast, !Builtins, !PageBlockClass}
  (reg : Registry) (i : value) {struct i} : result Page :=
  match Page_apply_with reg (Page_new reg) Page_default i with
  | (p, None) => inl p
  | (_, Some e) => inr e
  end.

(** [Page.apply] (lines 48-76). *)
Definition Page_apply `{!Cast, !Builtins, !PageBlockClass}
  (reg : Registry) (this : Page) (i : value) : Run :=
  Page_apply_with reg (Page_new reg) this i.

(** [Page.validate] (lines 103-112): [ee] collects the messages of the
    blocks in stored order. *)
Definition Page_validate `{!PageBlockClass} (this : Page) : list string :=
  foldl (fun ee b => ee ++ PageBlock_validate b) [] (blocks this).

(** ** [Namespace] ([namespace.ts]) *)

(** The field initialisers of the class, lines 39-56. *)
Definition Namespace_default `{!Cast} : Fields :=
  list_to_map
    [("namespaceID", NoID); ("name", VString ""); ("slug", VString "");
     ("enabled", VBool false); ("meta", VObject []);
     ("createdAt", VUndefined); ("updatedAt", VUndefined);
     ("deletedAt", VUndefined);
     ("canCreateChart", VBool false); ("canCreateModule", VBool false);
     ("canCreatePage", VBool false); ("canDeleteNamespace", VBool false);
     ("canUpdateNamespace", VBool false); ("canManageNamespace", VBool false);
     ("canGrant", VBool false)].

(** [Namespace.apply] (lines 62-84). *)
Definition Namespace_apply `{!Cast, !Builtins} (this : Fields) (n : value) : Fields :=
  if negb (truthy n) then this
  else
    let this := Apply this n coerceID ["namespaceID"] in
    let this := Apply this n coerceString ["name"; "slug"] in
    let this := Apply this n coerceBoolean ["enabled"] in
    let this :=
      if IsOf n "meta" then <["meta" := spread (getProp n "meta")]> this
      else this in
    let this := Apply this n coerceDate ["createdAt"; "updatedAt"; "deletedAt"] in
    Apply this n coerceBoolean
      ["canCreateChart"; "canCreateModule"; "canCreatePage";
       "canDeleteNamespace"; "canUpdateNamespace"; "canManageNamespace";
       "canGrant"].

(** ** [ModuleField] ([module-field.ts]) *)

(** The field initialisers of the class, lines 24-40; [defaultValue] has
    none. *)
Definition ModuleField_default `{!Cast} : Fields :=
  list_to_map
    [("fieldID", NoID); ("name", VString ""); ("kind", VString "");
     ("label", VString ""); ("maxLength", VNumber 0);
     ("isRequired", VBool false); ("isPrivate", VBool false);
     ("isMulti", VBool false); ("isSystem", VBool false);
     ("options", VObject []);
     ("canUpdateRecordValue", VBool false);
     ("canReadRecordValue", VBool false)].

(** Lines 58-63, [sys] being the outcome of the test [this.isSystem]. *)
Definition record_value_access (sys : bool) (this : Fields) (f : value) : Fields :=
  if sys then
    <["canReadRecordValue" := VBool true]>
      (<["canUpdateRecordValue" := VBool true]> this)
  else
    Apply this f coerceBoolean ["canUpdateRecordValue"; "canReadRecordValue"].

Definition apply_record_value_access (this : Fields) (f : value) : Fields :=
  record_value_access (truthy (field this "isSystem")) this f.

(** Lines 49-56. *)
Definition apply_typed `{!Cast, !Builtins} (this : Fields) (f : value) : Fields :=
  let this := Apply this f coerceID ["fieldID"] in
  let this := Apply this f coerceString ["name"; "label"; "kind"] in
  let this := Apply this f coerceNumber ["maxLength"] in
  let this := Apply this f coerceBoolean
                ["isRequired"; "isPrivate"; "isMulti"; "isSystem"] in
  if truthy (getProp f "defaultValue")
  then <["defaultValue" := getProp f "defaultValue"]> this
  else this.

(** Lines 65-71. *)
Definition apply_untyped (this : Fields) (f : value) : Fields :=
  let this :=
    if IsOf f "kind" then <["kind" := getProp f "kind"]> this else this in
  if IsOf f "options" then <["options" := getProp f "options"]> this else this.

(** [ModuleField.apply] (lines 46-72). *)
Definition ModuleField_apply `{!Cast, !Builtins} (this : Fields) (f : value) : Fields :=
  if negb (truthy f) then this
  else
    let this := apply_typed this f in
    let this := apply_record_value_access this f in
    apply_untyped this f.

(** ** Field updates that lay assignments over the fields *)

(** [F] assigns a set of fields that does not depend on the fields it is
    given: its result is that set laid over the given fields. *)
Definition overlay (F : Fields -> Fields) : Prop :=
  forall this, F this = F ∅ ∪ this.

End Compose.

(* ===================================================================== *)
(** * Reference instances of the collaborators *)
(* ===================================================================== *)

(** Concrete collaborators on which the theorems below are exercised. *)
Module Sample.

Definition is_digit (a : Ascii.ascii) : bool :=
  (48 <=? Ascii.nat_of_ascii a)%nat && (Ascii.nat_of_ascii a <=? 57)%nat.

Fixpoint all_digits (s : string) : bool :=
  match s with
  | EmptyString => true
  | String a s' => is_digit a && all_digits s'
  end.

(** A string of one or more decimal digits. *)
Definition looks_like_id (s : string) : bool :=
  negb (String.eqb s "") && all_digits s.

Definition cast : Cast := {|
  NoID := VString "0";
  CortezaID := fun v =>
    match v with
    | VString s => if looks_like_id s then VString s else VString "0"
    | VNumber n => if (0 <? n)%Z then VString (pretty n) else VString "0"
    | _ => VString "0"
    end;
  ISO8601Date := fun v => if truthy v then v else VUndefined;
  IsCortezaID := looks_like_id;
|}.

(** A reference instance of [String] and [Number] for the examples: it
    follows JavaScript on [undefined], [null], booleans, numbers and
    strings for [String] and on numbers and booleans for [Number]; it is
    not meant for arrays, objects or numeric strings, which no example
    converts. *)
Definition builtins : Builtins := {|
  JSString := fun v =>
    match v with
    | VString s => VString s
    | VNumber n => VString (pretty n)
    | VBool true => VString "true"
    | VBool false => VString "false"
    | VNull => VString "null"
    | VUndefined => VString "undefined"
    | _ => VString "[object Object]"
    end;
  JSNumber := fun v =>
    match v with
    | VNumber n => VNumber n
    | VBool true => VNumber 1
    | _ => VNumber 0
    end;
|}.

Definition id_of_string (s key : string) : result string :=
  if looks_like_id s then inl s
  else inr (Error ("unexpected value format for " ++ key)%string).

Definition shared : Shared := {|
  extractID := fun v key =>
    match v with
    | VString s => id_of_string s key
    | VObject props | VChannel props =>
        match lookup_prop key props with
        | VString s => id_of_string s key
        | _ => inr (Error ("unexpected value type for " ++ key)%string)
        end
    | _ => inr (Error ("unexpected value type for " ++ key)%string)
    end;
  isFresh := fun v =>
    match v with
    | VString s => negb (looks_like_id s) || String.eqb s "0"
    | _ => true
    end;
  kv := fun v => v;
|}.

Definition channels : ChannelClass := {|
  newChannel := fun raw =>
    match raw with
    | VObject props | VChannel props => inl props
    | _ => inl []
    end;
|}.

(** Blocks that keep their raw object and report the strings listed under
    [problems]. *)
Definition problems_of (b : value) : list string :=
  match getProp b "problems" with
  | VArray items =>
      omap (fun v => match v with VString s => Some s | _ => None end) items
  | _ => []
  end.

Definition pageBlocks : PageBlockClass := {|
  PageBlock := value;
  PageBlock_validate := problems_of;
|}.

(** A Messaging API that knows the channels 7 and 8. *)
Definition api : Messaging.MessagingAPI := {|
  Messaging.channelRead := fun channelID =>
    if String.eqb channelID "7" then
      inl (VObject [("channelID", VString "7"); ("name", VString "general")])
    else if String.eqb channelID "8" then
      inl (VObject [("channelID", VString "8"); ("name", VString "random")])
    else inr (Error "channel not found");
  Messaging.channelCreate := fun payload => inl payload;
  Messaging.channelUpdate := fun payload => inl payload;
|}.

Definition helper : Messaging.MessagingHelper := {|
  Messaging.API := api;
  Messaging.authUser := VObject [("userID", VString "42")];
  Messaging.channel := VUndefined;
|}.

(** An identifier and an object that carries another one, with the
    channels they stand for. *)
Definition candA : value := VString "7".
Definition candB : value := VObject [("channelID", VString "8")].
Definition chan7 : Channel :=
  [("channelID", VString "7"); ("name", VString "general")].
Definition chan8 : Channel :=
  [("channelID", VString "8"); ("name", VString "random")].

(** A registry in which the kind [X] is registered. *)
Definition registry : gmap string (value -> result (@PageBlock pageBlocks)) :=
  Compose.Registry_set (H := pageBlocks) "X" (fun raw => inl (raw : value)) ∅.

(** [{ blocks: [{kind:'X', xywh:[0,0,1,1]}, {no-kind-field:true}] }] *)
Definition example_source : value :=
  VObject
    [("blocks",
      VArray
        [VObject [("kind", VString "X");
                  ("xywh", VArray [VNumber 0; VNumber 0; VNumber 1; VNumber 1])];
         VObject [("no-kind-field", VBool true)]])].

(** A blocks array whose only element has no [kind], next to a sub-page
    that carries a block of the unregistered kind [Y]. *)
Definition mixed_source : value :=
  VObject
    [("blocks", VArray [VObject []]);
     ("children",
      VArray
        [VObject [("pageID", VString "1");
                  ("blocks",
                   VArray [VObject [("kind", VString "Y");
                                    ("xywh", VArray [])]])]])].

(** [{ isSystem: true }] *)
Definition system_source : value := VObject [("isSystem", VBool true)].

(** [{ title: 'Home' }] *)
Definition title_source : value := VObject [("title", VString "Home")].

(** Three blocks: the first and the third report problems. *)
Definition block1 : @PageBlock pageBlocks :=
  VObject [("kind", VString "X"); ("problems", VArray [VString "first"])].
Definition block2 : @PageBlock pageBlocks := VObject [("kind", VString "X")].
Definition block3 : @PageBlock pageBlocks :=
  VObject [("kind", VString "X");
           ("problems", VArray [VString "third"; VString "third again"])].

Definition three_blocks : @Compose.Page pageBlocks :=
  Compose.mkPage ∅ [block1; block2; block3] None.

(** A page without blocks over three sub-pages, the first and the third
    of which hold a block that reports problems. *)
Definition sub1 : @Compose.Page pageBlocks := Compose.mkPage ∅ [block1] None.
Definition sub2 : @Compose.Page pageBlocks := Compose.mkPage ∅ [block2] None.
Definition sub3 : @Compose.Page pageBlocks := Compose.mkPage ∅ [block3] None.
Definition three_children : @Compose.Page pageBlocks :=
  Compose.mkPage ∅ [] (Some [sub1; sub2; sub3]).

End Sample.

(* ===================================================================== *)
(** * Further methods of the messaging helper *)
(* ===================================================================== *)

Module MessagingCalls.
Import Messaging.

(** The classes [User] and [Message] ([system], [messaging/]), kept
    abstract: [ch instanceof User] and [new Message(raw)], which returns
    the instance or throws. *)
Class MessageClass : Type := {
  isUser : value -> bool;
  newMessage : value -> result value;
}.

(** The list and message operations of the Messaging API client. *)
Record MessagingAPIMore : Type := {
  channelList : value -> result value;
  messageCreate : value -> result value;
}.

(** Observable steps of [sendMessage] and [findChannels]: the steps of the
    methods they call, and their own requests. *)
Inductive call : Type :=
| Helper (ev : event)
| ChannelList (filter : value)
| MessageCreate (payload : value).

(** An [async] method over these steps. *)
Definition C (A : Type) : Type := (list call * result A)%type.

Definition retC {A} (a : A) : C A := ([], inl a).
Definition throwC {A} (e : error) : C A := ([], inr e).
Definition tellC (c : call) : C unit := ([c], inl tt).
Definition liftR {A} (r : result A) : C A := ([], r).
Definition liftM {A} (m : M A) : C A := (map Helper (fst m), snd m).
Definition bindC {A B} (m : C A) (k : A -> C B) : C B :=
  match m with
  | (t, inl a) => let '(t', r) := k a in (t ++ t', r)
  | (t, inr e) => (t, inr e)
  end.

Notation "x <-- m ;; k" := (bindC m (fun x => k))
  (at level 100, m at next level, right associativity).
Notation "m ;;;; k" := (bindC m (fun _ => k))
  (at level 100, right associativity).

Definition typeError : error :=
  Error "TypeError: cannot read properties of undefined".

(** [o[k] = v] on an object: the property is replaced where it stands, or
    added behind the others. *)
Fixpoint assign_prop (k : string) (v : value) (props : list (string * value))
  : list (string * value) :=
  match props with
  | [] => [(k, v)]
  | (k', v') :: rest =>
      if String.eqb k' k then (k, v) :: rest
      else (k', v') :: assign_prop k v rest
  end.

Definition setProp (o : value) (k : string) (v : value) : value :=
  match o with
  | VObject props => VObject (assign_prop k v props)
  | VChannel props => VChannel (assign_prop k v props)
  | _ => o
  end.

(** ** [findChannels] (lines 83-96) *)
Definition notFound : error := Error "channel not found".

(** Lines 84-86: a string stands for the filter with that query. *)
Definition as_filter (filter : value) : value :=
  match filter with
  | VString _ => VObject [("query", filter)]
  | _ => filter
  end.

Definition findChannels `{!ChannelClass}
  (api : MessagingAPIMore) (filter : value) : C value :=
  let filter := as_filter filter in                                 (* 84 *)
  tellC (ChannelList filter) ;;;;                                   (* 88 *)
  res <-- liftR (channelList api filter) ;;
  match res with
  | VUndefined | VNull => throwC typeError
  | _ =>
      match getProp res "set" with
      | VArray (m :: ms) =>
          set <-- liftR (Compose.mapR newChannel (m :: ms)) ;;      (* 93 *)
          retC (setProp res "set" (VArray (map VChannel set)))
      | _ => throwC notFound                                        (* 89 *)
      end
  end.

(** ** [sendMessage] (lines 58-76) *)

(** Lines 65-69: a string is the text of a new message. *)
Definition as_message (message : value) : value :=
  match message with
  | VString _ => VObject [("message", message)]
  | _ => message
  end.

Definition sendMessage `{!Cast, !Shared, !ChannelClass, !MessageClass}
  (this : MessagingHelper) (api : MessagingAPIMore) (message ch : value)
  : C value :=
  ch <-- (if isUser ch then                                         (* 59 *)
            c <-- liftM (directChannel this ch VUndefined) ;;
            retC (VChannel c)
          else retC ch) ;;
  ch <-- liftM (resolveChannel this [ch; channel this]) ;;          (* 63 *)
  m <-- liftR (newMessage (as_message message)) ;;                  (* 65 *)
  (* line 71 assigns [m.channelID]; [m] is not used after it *)
  tellC (MessageCreate (kv message)) ;;;;                           (* 73 *)
  sent <-- liftR (messageCreate api (kv message)) ;;
  liftR (newMessage sent).

(** The requests among the steps of a resolver call. *)
Definition is_request (ev : event) : bool :=
  match ev with
  | Awaited _ => false
  | _ => true
  end.

(** Steps that leave the channels of the server as they are. *)
Definition reads_only (ev : event) : bool :=
  match ev with
  | ChannelCreate _ | ChannelUpdate _ => false
  | _ => true
  end.

(** A turn of the loop that continues has done nothing; a turn sends at
    most one request, and it is a read. *)
Definition calm {A} (m : M (option A)) : Prop :=
  (outcome m = inl None -> trace m = [])
  /\ length (List.filter is_request (trace m)) <= 1
  /\ forallb reads_only (trace m) = true.

(** The steps of a call that create a message. *)
Definition creates_message (c : call) : bool :=
  match c with
  | MessageCreate _ => true
  | _ => false
  end.

End MessagingCalls.

(* ===================================================================== *)
(** * Further members of the compose types *)
(* ===================================================================== *)

Module ComposeMore.
Import Compose.

(** ** [ModuleField.hasValidName], [isValid] ([module-field.ts], 4, 74-80) *)

Definition between (lo hi : nat) (a : Ascii.ascii) : bool :=
  (lo <=? Ascii.nat_of_ascii a)%nat && (Ascii.nat_of_ascii a <=? hi)%nat.

(** [\w]: a letter, a digit or the underscore. *)
Definition is_word (a : Ascii.ascii) : bool :=
  between 48 57 a || between 65 90 a || between 97 122 a || between 95 95 a.

Fixpoint all_word (s : string) : bool :=
  match s with
  | EmptyString => true
  | String a s' => is_word a && all_word s'
  end.

(** [FieldNameValidator.test(s)] for [/^\w{1,}$/] on a string. *)
Definition FieldNameValidator (s : string) : bool :=
  negb (String.eqb s "") && all_word s.

(** [test] converts its argument to a string first. *)
Definition hasValidName `{!Builtins} (this : Fields) : bool :=
  match field this "name" with
  | VString s => FieldNameValidator s
  | v =>
      match JSString v with
      | VString s => FieldNameValidator s
      | _ => false
      end
  end.

Definition isValid `{!Builtins} (this : Fields) : bool := hasValidName this.

(** [new ModuleField(f)] (lines 42-44), [new Namespace(i)] ([namespace.ts],
    lines 58-60). *)
Definition ModuleField_new `{!Cast, !Builtins} (f : value) : Fields :=
  ModuleField_apply ModuleField_default f.
Definition Namespace_new `{!Cast, !Builtins} (i : value) : Fields :=
  Namespace_apply Namespace_default i.

(** ** [PageBlockIFrame] ([page-block/iframe.ts]) *)

Definition IFrame_kind : string := "IFrame".

(** Lines 12-16. *)
Definition IFrame_defaults : Fields :=
  list_to_map
    [("srcField", VString ""); ("src", VString ""); ("wrap", VString "Plain")].

(** [applyOptions] (lines 28-32). *)
Definition applyOptions `{!Builtins} (options : Fields) (o : value) : Fields :=
  if negb (truthy o) then options
  else Apply options o coerceString ["srcField"; "src"; "wrap"].

(** The options the constructor leaves (lines 21, 25): a copy of the
    defaults under [applyOptions(i?.options)]. *)
Definition IFrame_options `{!Builtins} (i : value) : Fields :=
  applyOptions IFrame_defaults
    match i with
    | VUndefined | VNull => VUndefined
    | _ => getProp i "options"
    end.

(** The names [Page.apply], [Namespace.apply] and [ModuleField.apply]
    assign. *)
Definition Page_names : list string :=
  ["pageID"; "selfID"; "moduleID"; "namespaceID"; "title"; "handle";
   "description"; "weight"; "visible"; "createdAt"; "updatedAt"; "deletedAt";
   "canUpdatePage"; "canDeletePage"; "canGrant"].

Definition Namespace_names : list string :=
  ["namespaceID"; "name"; "slug"; "enabled"; "meta"; "createdAt"; "updatedAt";
   "deletedAt"; "canCreateChart"; "canCreateModule"; "canCreatePage";
   "canDeleteNamespace"; "canUpdateNamespace"; "canManageNamespace";
   "canGrant"].

Definition ModuleField_names : list string :=
  ["fieldID"; "name"; "label"; "kind"; "maxLength"; "isRequired"; "isPrivate";
   "isMulti"; "isSystem"; "defaultValue"; "canUpdateRecordValue";
   "canReadRecordValue"; "options"].

End ComposeMore.

(* ===================================================================== *)
(** * The reminder feed ([page-block/calendar/feed-reminder.ts]) *)
(* ===================================================================== *)

Module Feed.

(** A [Reminder] as the feed reads it: [reminderID], [assignedTo],
    [remindAt] and [payload.title]. *)
Record Reminder : Type := {
  reminderID : string;
  assignedTo : string;
  remindAt : value;
  payload_title : value;
}.

(** The calendar event built from a reminder (lines 55-64). *)
Record Event : Type := {
  id : string;
  title : value;
  start : value;
  backgroundColor : value;
  borderColor : value;
  classNames : list string;
  extendedProps_reminderID : string;
}.

(** What [makeColors] answers with. *)
Record Colors : Type := {
  colors_background : value;
  colors_border : value;
  isLight : bool;
}.

(** [makeColors] of [./shared] and [Date.prototype.toISOString], which
    throws on an invalid date; kept abstract. *)
Class FeedShared : Type := {
  makeColors : value -> Colors;
  toISOString : value -> result string;
}.

(** The request [reminderList] receives (lines 35-40). *)
Record ReminderListRequest : Type := {
  perPage : nat;
  scheduledFrom : string;
  scheduledUntil : string;
  scheduledOnly : bool;
  excludeDismissed : bool;
  req_assignedTo : string;
}.

Definition defaultColor : value := VString "#568ba2".

(** [a || b] *)
Definition or_else (a b : value) : value := if truthy a then a else b.

(** Lines 45-53. *)
Definition classNames_of `{!FeedShared} (color : value) (userID : string)
  (r : Reminder) : list string :=
  let classNames := ["event"; "event-reminder"] in
  let classNames :=
    if negb (String.eqb (assignedTo r) userID)
    then classNames ++ ["event-not-owner"] else classNames in
  if isLight (makeColors color)
  then classNames ++ ["text-dark"] else classNames ++ ["text-white"].

(** Lines 44-65. *)
Definition event_of `{!FeedShared} (color : value) (userID : string)
  (r : Reminder) : Event := {|
  id := reminderID r;
  title := or_else (payload_title r) (VString (reminderID r));
  start := remindAt r;
  backgroundColor := colors_background (makeColors color);
  borderColor := colors_border (makeColors color);
  classNames := classNames_of color userID r;
  extendedProps_reminderID := reminderID r;
|}.

(** The outcome of a call: the colour the feed is left with, the requests
    sent and the events or the error. *)
Record FeedRun : Type := {
  feed_color : value;
  requests : list ReminderListRequest;
  events : result (list Event);
}.

(** [ReminderFeed] (lines 32-68).  [reminderList] answers with the [set]
    of the response ([None] where the response has none) or fails. *)
Definition ReminderFeed `{!FeedShared}
  (reminderList : ReminderListRequest -> result (option (list Reminder)))
  (userID : string) (color : value) (range_start range_end : value) : FeedRun :=
  let color := or_else color defaultColor in                        (* 33 *)
  match toISOString range_start with
  | inr e => {| feed_color := color; requests := []; events := inr e |}
  | inl from =>
      match toISOString range_end with
      | inr e => {| feed_color := color; requests := []; events := inr e |}
      | inl until =>
          let request := {|
            perPage := 0;
            scheduledFrom := from;
            scheduledUntil := until;
            scheduledOnly := true;
            excludeDismissed := true;
            req_assignedTo := userID;
          |} in
          {| feed_color := color;
             requests := [request];
             events :=
               match reminderList request with
               | inr e => inr e
               | inl set =>
                   let reminders := default [] set in               (* 41 *)
                   inl (map (event_of color userID) reminders)
               end |}
      end
  end.

End Feed.

(** Further reference instances. *)
Module SampleMore.

Definition messages : MessagingCalls.MessageClass := {|
  MessagingCalls.isUser := fun v =>
    negb (is_undefined (getProp v "userID"))
    && is_undefined (getProp v "channelID");
  MessagingCalls.newMessage := fun raw => inl raw;
|}.

(** An API that lists the two channels for the query [all] and nothing
    otherwise, and echoes a created message. *)
Definition apiMore : MessagingCalls.MessagingAPIMore := {|
  MessagingCalls.channelList := fun filter =>
    match getProp filter "query" with
    | VString "all" =>
        inl (VObject [("filter", filter);
                      ("set", VArray [VObject Sample.chan7; VObject Sample.chan8])])
    | _ => inl (VObject [("filter", filter); ("set", VArray [])])
    end;
  MessagingCalls.messageCreate := fun payload => inl payload;
|}.

(** A helper whose context channel is the channel 8. *)
Definition helper_in_channel : Messaging.MessagingHelper := {|
  Messaging.API := Sample.api;
  Messaging.authUser := VObject [("userID", VString "42")];
  Messaging.channel := VChannel Sample.chan8;
|}.

(** A helper whose server is down: every request fails with the error
    of the transport. *)
Definition api_down : Messaging.MessagingAPI := {|
  Messaging.channelRead := fun _ => inr (Error "503 Service Unavailable");
  Messaging.channelCreate := fun _ => inr (Error "503 Service Unavailable");
  Messaging.channelUpdate := fun _ => inr (Error "503 Service Unavailable");
|}.

Definition helper_down : Messaging.MessagingHelper := {|
  Messaging.API := api_down;
  Messaging.authUser := VObject [("userID", VString "42")];
  Messaging.channel := VUndefined;
|}.

Definition feedShared : Feed.FeedShared := {|
  Feed.makeColors := fun color => {|
    Feed.colors_background := color;
    Feed.colors_border := color;
    Feed.isLight := match color with VString "#ffffff" => true | _ => false end;
  |};
  Feed.toISOString := fun d =>
    match d with
    | VString s => inl s
    | _ => inr (Error "RangeError: Invalid time value")
    end;
|}.

Definition reminder1 : Feed.Reminder := {|
  Feed.reminderID := "1"; Feed.assignedTo := "42";
  Feed.remindAt := VString "2020-01-01T10:00:00Z";
  Feed.payload_title := VString "Call back";
|}.
Definition reminder2 : Feed.Reminder := {|
  Feed.reminderID := "2"; Feed.assignedTo := "43";
  Feed.remindAt := VString "2020-01-02T10:00:00Z";
  Feed.payload_title := VString "";
|}.

End SampleMore.

(** Further sources for the compose types. *)
Module SampleSources.

(** A title, a block of the unregistered kind [Y] and a timestamp. *)
Definition failing_source : value :=
  VObject
    [("title", VString "T");
     ("blocks", VArray [VObject [("kind", VString "Y"); ("xywh", VArray [])]]);
     ("createdAt", VString "2020-01-01")].

(** Two blocks of the registered kind [X]. *)
Definition blockA : value :=
  VObject [("kind", VString "X"); ("xywh", VArray []); ("title", VString "a")].
Definition blockB : value :=
  VObject [("kind", VString "X"); ("xywh", VArray []); ("title", VString "b")].
Definition blocks_source : value :=
  VObject [("blocks", VArray [blockA; blockB])].

(** Two sub-pages. *)
Definition childA : value :=
  VObject [("pageID", VString "1"); ("title", VString "A")].
Definition childB : value := VObject [("pageID", VString "2")].
Definition children_source : value :=
  VObject [("children", VArray [childA; childB])].

(** [{ kind: 5 }], [{ meta: { subtitle: 'x' } }], [{ name: 'first_name' }]
    and [{ colour: 'red', src: 'https://example.org' }]. *)
Definition kind_source : value := VObject [("kind", VNumber 5)].
Definition meta_source : value :=
  VObject [("meta", VObject [("subtitle", VString "x")])].
Definition name_source : value := VObject [("name", VString "first_name")].
Definition iframe_source : value :=
  VObject [("options",
            VObject [("colour", VString "red");
                     ("src", VString "https://example.org")])].

(** [{ blocks: [{}], children: [{ pageID: '1' }] }]: a blocks array
    that fails its guard next to a sub-page that constructs. *)
Definition dropped_blocks_source : value :=
  VObject
    [("blocks", VArray [VObject []]);
     ("children", VArray [VObject [("pageID", VString "1")]])].

(** Entities that have left their defaults behind: a page titled [Home]
    with three blocks and a sub-page, a namespace named [Shop], and a
    module field named [email] whose record values can be read. *)
Definition home_page : @Compose.Page Sample.pageBlocks :=
  Compose.mkPage
    (<["title" := VString "Home"]>
       (Compose.fields (@Compose.Page_default Sample.cast Sample.pageBlocks)))
    [Sample.block1; Sample.block2; Sample.block3]
    (Some [Sample.sub1]).

Definition shop_namespace : Compose.Fields :=
  <["name" := VString "Shop"]> (@Compose.Namespace_default Sample.cast).

Definition email_field : Compose.Fields :=
  <["name" := VString "email"]>
    (<["canReadRecordValue" := VBool true]>
       (@Compose.ModuleField_default Sample.cast)).

(** [{ handle: 'home', slug: 'shop', label: 'E-mail' }] *)
Definition rename_source : value :=
  VObject [("handle", VString "home"); ("slug", VString "shop");
           ("label", VString "E-mail")].

End SampleSources.

(* ===================================================================== *)
(** * Properties of the messaging helper *)
(* ===================================================================== *)

Module MessagingTheory.
Import Messaging.

Section Resolver.
Context `{!Cast, !Shared, !ChannelClass}.
Implicit Types (this : MessagingHelper) (c v : value) (args : list value).

(** ** The monad *)

Lemma bind_tell {A} (ev : event) (m : M A) :
  (tell ev ;;; m) = (ev :: trace m, outcome m).
Proof. destruct m as [t r]. reflexivity. Qed.

(** ** [await] *)

Lemma awaitK_await {A} (K : value -> M A) c :
  awaitK K c = match await c with inl v => K v | inr e => throw e end.
Proof. induction c; simpl; auto. Qed.

Lemma awaitK_ext {A} (K K' : value -> M A) c :
  (forall v, K v = K' v) -> awaitK K c = awaitK K' c.
Proof. intros HK. rewrite !awaitK_await. destruct (await c); auto. Qed.

(** An awaited value is no promise any more. *)
Lemma await_settled c v : await c = inl v -> await v = inl v.
Proof. induction c; simpl; intros Hc; try (inversion Hc; subst; reflexivity); auto. Qed.

(** ** The loop *)

Lemma resolveChannel_nil this : resolveChannel this [] = throw genericError.
Proof. reflexivity. Qed.

Lemma resolveChannel_cons this c rest :
  resolveChannel this (c :: rest) =
  (tell (Awaited c) ;;;
   r <- turn this c ;;
   match r with
   | Some ch => ret ch
   | None => resolveChannel this rest
   end).
Proof. reflexivity. Qed.

Lemma ownPropK_channelID this props :
  ownPropK "channelID"
    (fun channelID => returns (forOf (turn this) [channelID]))
    (returns (forOf (fun _ => continue) [VUndefined])) props
  = returns (resolveChannel this [lookup_prop "channelID" props]).
Proof.
  induction props as [|[k v] props IH]; simpl.
  - reflexivity.
  - destruct (String.eqb k "channelID"); [reflexivity | exact IH].
Qed.

(** [turn] runs the loop body of the source on the awaited candidate. *)
Lemma turn_unfold this c :
  turn this c =
  match await c with
  | inl v => settled_turn this v
  | inr e => throw e
  end.
Proof.
  rewrite <- awaitK_await.
  transitivity (awaitK (fun c =>
    if negb (truthy c) then continue
    else if is_id_string c then returns (findChannelByID this c)
    else if negb (typeof_object c) then continue
    else
      match c with
      | VChannel ch => ret (Some ch)
      | VObject props =>
          ownPropK "channelID"
            (fun channelID => returns (forOf (turn this) [channelID]))
            (returns (forOf (fun _ => continue) [VUndefined]))
            props
      | _ => returns (forOf (fun _ => continue) [VUndefined])
      end) c).
  { destruct c; reflexivity. }
  apply awaitK_ext. intros v. unfold settled_turn.
  destruct v; try reflexivity.
  simpl. apply ownPropK_channelID.
Qed.

(** The resolver as the source writes it. *)
Lemma resolveChannel_unfold this c rest :
  resolveChannel this (c :: rest) =
  (tell (Awaited c) ;;;
   match await c with
   | inr e => throw e
   | inl c =>
       if negb (truthy c) then resolveChannel this rest
       else if is_id_string c then findChannelByID this c
       else if negb (typeof_object c) then resolveChannel this rest
       else
         match c with
         | VChannel ch => ret ch
         | _ => resolveChannel this [getProp c "channelID"]
         end
   end).
Proof.
  rewrite resolveChannel_cons, turn_unfold, !bind_tell.
  match goal with
  | |- (_ :: trace ?x, outcome ?x) = (_ :: trace ?y, outcome ?y) =>
      enough (Hxy : x = y) by (rewrite Hxy; reflexivity)
  end.
  destruct (await c) as [v|e]; [|reflexivity].
  unfold settled_turn.
  assert (Hcont :
    (r <- continue ;; match r with Some ch => ret ch | None => resolveChannel this rest end)
    = resolveChannel this rest).
  { unfold continue, bind, ret. destruct (resolveChannel this rest). reflexivity. }
  destruct (negb (truthy v)); [exact Hcont|].
  assert (Hret : forall m : M Channel,
    (r <- returns m ;; match r with Some ch => ret ch | None => resolveChannel this rest end) = m).
  { intros [t [ch|e]]; unfold returns, bind, ret; simpl; [rewrite !app_nil_r|]; reflexivity. }
  destruct (is_id_string v); [apply Hret|].
  destruct (negb (typeof_object v)); [exact Hcont|].
  destruct v; try apply Hret. reflexivity.
Qed.


(** ** Walking past candidates *)

Lemma skipped_step this c rest :
  skipped c = true ->
  resolveChannel this (c :: rest) =
  (Awaited c :: trace (resolveChannel this rest),
   outcome (resolveChannel this rest)).
Proof.
  intros Hs. rewrite resolveChannel_unfold, bind_tell.
  unfold skipped in Hs. destruct (await c) as [v|e]; [|discriminate].
  destruct (negb (truthy v)); [reflexivity|]. simpl in Hs.
  apply andb_true_iff in Hs as [Hid Hobj].
  apply negb_true_iff in Hid. rewrite Hid, Hobj. reflexivity.
Qed.

Lemma skipped_prefix this pre rest :
  forallb skipped pre = true ->
  resolveChannel this (pre ++ rest) =
  (map Awaited pre ++ trace (resolveChannel this rest),
   outcome (resolveChannel this rest)).
Proof.
  induction pre as [|c pre IH]; intros Hs.
  - simpl. destruct (resolveChannel this rest); reflexivity.
  - simpl in Hs. apply andb_true_iff in Hs as [Hc Hpre].
    change ((c :: pre) ++ rest) with (c :: (pre ++ rest)).
    rewrite (skipped_step _ _ _ Hc), (IH Hpre). reflexivity.
Qed.

Lemma unresolvable_skipped c : unresolvable c = true -> skipped c = true.
Proof.
  unfold unresolvable, skipped. destruct (await c) as [v|e]; [|auto].
  destruct (negb (truthy v)); [reflexivity|]. simpl.
  destruct v; try discriminate. simpl. intros Hs. rewrite Hs. reflexivity.
Qed.

Lemma falsy_skipped v : truthy v = false -> skipped v = true.
Proof.
  intros Hf. unfold skipped.
  replace (await v) with (inl v : result value)
    by (destruct v; try reflexivity; discriminate).
  rewrite Hf. reflexivity.
Qed.

(** A one-candidate call that resolves has returned from inside of the
    loop, so the rest of the list has no part in the result. *)
Lemma resolved_head this A rest t ch :
  resolveChannel this [A] = (t, inl ch) ->
  resolveChannel this (A :: rest) = (t, inl ch).
Proof.
  rewrite !resolveChannel_unfold, !bind_tell, resolveChannel_nil.
  destruct (await A) as [v|e]; [|discriminate].
  destruct (negb (truthy v)); [discriminate|].
  destruct (is_id_string v); [auto|].
  destruct (negb (typeof_object v)); [discriminate|].
  auto.
Qed.

(** ** The claims about [resolveChannel] *)

(** C1. First wins: when [A] alone and [B] alone each resolve to a
    channel, resolving [[A; B]] is resolving [A] alone: the same channel
    and the same trace of awaited values and remote calls, so [B] is
    neither awaited nor looked up; whatever stands in the place of [B],
    the call is the same. *)
Theorem resolveChannel_first_wins this A B chA chB :
  outcome (resolveChannel this [A]) = inl chA ->
  outcome (resolveChannel this [B]) = inl chB ->
  resolveChannel this [A; B] = resolveChannel this [A]
  /\ outcome (resolveChannel this [A; B]) = inl chA
  /\ (forall B', resolveChannel this [A; B'] = resolveChannel this [A; B]).
Proof.
  intros HA _.
  destruct (resolveChannel this [A]) as [t r] eqn:EA. simpl in HA. subst r.
  assert (Hrest : forall rest, resolveChannel this (A :: rest) = (t, inl chA))
    by (intros rest; apply resolved_head; exact EA).
  rewrite (Hrest [B]). repeat split. intros B'. apply Hrest.
Qed.

(** C5. Exhaustion: when every candidate, once awaited, is falsy or a
    string that is not identifier-shaped, the call rejects with the
    generic error after it has awaited every candidate of the list, in
    order, and without a remote call. *)
Theorem resolveChannel_exhausted this args :
  forallb unresolvable args = true ->
  resolveChannel this args = (map Awaited args, inr genericError).
Proof.
  intros Hu.
  assert (Hs : forallb skipped args = true).
  { apply forallb_forall. intros c Hc.
    apply unresolvable_skipped. eapply forallb_forall in Hu; eauto. }
  pose proof (skipped_prefix this args [] Hs) as Hp.
  rewrite !app_nil_r in Hp. exact Hp.
Qed.

(** A lookup whose identifier [extractID] accepts sends one request. *)
Lemma findChannelByID_trace this c id :
  extractID c "channelID" = inl id ->
  trace (findChannelByID this c) = [ChannelRead id].
Proof.
  intros Hid. unfold findChannelByID. rewrite Hid.
  unfold lift, bind, tell, trace.
  destruct (channelRead (API this) id) as [raw|e]; [|reflexivity].
  destruct (newChannel raw); reflexivity.
Qed.

(** C6. Identifier lookup: when the candidate the loop has reached is an
    identifier-shaped string, the call is the lookup [findChannelByID] of
    that string, and the lookup is the remote one: the single request
    [channelRead] of the API client, for the identifier that [extractID]
    takes from the string, follows the awaited candidates, and the outcome
    of the call is the outcome of that request, [new Channel] of its
    answer or, when the request is rejected, its error.  When [extractID]
    rejects the string the call rejects with that error and no request is
    sent.  The candidates behind the string are not touched. *)
Theorem resolveChannel_id_lookup this pre c s rest :
  s <> "" ->
  forallb skipped pre = true ->
  await c = inl (VString s) ->
  IsCortezaID s = true ->
  resolveChannel this (pre ++ c :: rest) =
    (map Awaited pre ++ Awaited c :: trace (findChannelByID this (VString s)),
     outcome (findChannelByID this (VString s)))
  /\ (forall e, outcome (findChannelByID this (VString s)) = inr e ->
        outcome (resolveChannel this (pre ++ c :: rest)) = inr e)
  /\ (forall id, extractID (VString s) "channelID" = inl id ->
        resolveChannel this (pre ++ c :: rest)
        = (map Awaited pre ++ [Awaited c; ChannelRead id],
           match channelRead (API this) id with
           | inl raw => newChannel raw
           | inr e => inr e
           end))
  /\ (forall id e, extractID (VString s) "channelID" = inl id ->
        channelRead (API this) id = inr e ->
        resolveChannel this (pre ++ c :: rest)
        = (map Awaited pre ++ [Awaited c; ChannelRead id], inr e))
  /\ (forall e, extractID (VString s) "channelID" = inr e ->
        resolveChannel this (pre ++ c :: rest)
        = (map Awaited pre ++ [Awaited c], inr e)).
Proof.
  intros Hne Hpre Hc Hid.
  assert (Hs : truthy (VString s) = true).
  { simpl. destruct (String.eqb_spec s ""); [contradiction | reflexivity]. }
  assert (E : resolveChannel this (pre ++ c :: rest) =
    (map Awaited pre ++ Awaited c :: trace (findChannelByID this (VString s)),
     outcome (findChannelByID this (VString s)))).
  { rewrite (skipped_prefix _ _ _ Hpre), resolveChannel_unfold, bind_tell, Hc, Hs.
    simpl. rewrite Hid. reflexivity. }
  assert (Hread : forall id, extractID (VString s) "channelID" = inl id ->
    findChannelByID this (VString s)
    = ([ChannelRead id],
       match channelRead (API this) id with
       | inl raw => newChannel raw
       | inr e => inr e
       end)).
  { intros id Hex. unfold findChannelByID. rewrite Hex.
    unfold lift, bind, tell.
    destruct (channelRead (API this) id) as [raw|e]; [|reflexivity].
    destruct (newChannel raw); reflexivity. }
  split; [exact E|]. split; [|split; [|split]].
  - intros e He. rewrite E. exact He.
  - intros id Hex. rewrite E, (Hread id Hex). reflexivity.
  - intros id e Hex Herr. rewrite E, (Hread id Hex), Herr. reflexivity.
  - intros e Hex. rewrite E. unfold findChannelByID. rewrite Hex. reflexivity.
Qed.

(** C10. Another object ends the walk: when the candidate the loop has
    reached is a non-null object that is no [Channel], the call is the
    resolution of its [channelID] property alone; with [channelID] absent
    or falsy the call rejects with the generic error, whatever candidates
    follow. *)
Theorem resolveChannel_object_ends this pre c v rest :
  forallb skipped pre = true ->
  await c = inl v ->
  truthy v = true ->
  typeof_object v = true ->
  is_channel v = false ->
  resolveChannel this (pre ++ c :: rest) =
    (map Awaited pre ++ Awaited c
       :: trace (resolveChannel this [getProp v "channelID"]),
     outcome (resolveChannel this [getProp v "channelID"]))
  /\ (truthy (getProp v "channelID") = false ->
      resolveChannel this (pre ++ c :: rest) =
        (map Awaited pre ++ [Awaited c; Awaited (getProp v "channelID")],
         inr genericError)).
Proof.
  intros Hpre Hc Ht Ho Hch.
  assert (E : resolveChannel this (pre ++ c :: rest) =
    (map Awaited pre ++ Awaited c
       :: trace (resolveChannel this [getProp v "channelID"]),
     outcome (resolveChannel this [getProp v "channelID"]))).
  { rewrite (skipped_prefix _ _ _ Hpre), resolveChannel_unfold, bind_tell, Hc, Ht.
    simpl. destruct v; try discriminate; reflexivity. }
  split; [exact E|]. intros Hf. rewrite E.
  rewrite (skipped_step this _ [] (falsy_skipped _ Hf)). reflexivity.
Qed.

(** ** [directChannel] *)

(** C7. Self-reference: when the identifier extracted from the first user
    equals the one extracted from the second (the current user when
    [second] is left out), the call rejects with [can not send message to
    self] and sends nothing to the remote API. *)
Theorem directChannel_self this first second id :
  extractID first "userID" = inl id ->
  extractID (second_or_default this second) "userID" = inl id ->
  directChannel this first second = ([], inr selfError).
Proof.
  intros Hfirst Hsecond. unfold directChannel. rewrite Hfirst, Hsecond.
  unfold lift, bind. simpl. rewrite String.eqb_refl. reflexivity.
Qed.

End Resolver.

(** ** The theorems on the reference instances *)

Section OnSample.
#[local] Existing Instance Sample.cast.
#[local] Existing Instance Sample.shared.
#[local] Existing Instance Sample.channels.

Lemma resolveChannel_first_wins_witness :
  outcome (resolveChannel Sample.helper [Sample.candA]) = inl Sample.chan7
  /\ outcome (resolveChannel Sample.helper [Sample.candB]) = inl Sample.chan8
  /\ resolveChannel Sample.helper [Sample.candA; Sample.candB]
     = ([Awaited Sample.candA; ChannelRead "7"], inl Sample.chan7).
Proof.
  split; [reflexivity|]. split; [reflexivity|].
  destruct (resolveChannel_first_wins Sample.helper
              Sample.candA Sample.candB Sample.chan7 Sample.chan8) as [E _];
    [reflexivity | reflexivity |].
  rewrite E. reflexivity.
Defined.

Lemma resolveChannel_exhausted_witness :
  forallb unresolvable
    [VUndefined; VString "general"; VFulfilled VNull; VNumber 0] = true
  /\ resolveChannel Sample.helper
       [VUndefined; VString "general"; VFulfilled VNull; VNumber 0]
     = ([Awaited VUndefined; Awaited (VString "general");
         Awaited (VFulfilled VNull); Awaited (VNumber 0)],
        inr genericError).
Proof.
  split; [reflexivity|].
  apply (resolveChannel_exhausted Sample.helper
           [VUndefined; VString "general"; VFulfilled VNull; VNumber 0]).
  reflexivity.
Defined.

Lemma resolveChannel_id_lookup_witness :
  "7" <> ""
  /\ forallb skipped [VNull] = true
  /\ await (VFulfilled (VString "7")) = inl (VString "7")
  /\ IsCortezaID "7" = true
  /\ channelRead (API Sample.helper) "7"
     = inl (VObject [("channelID", VString "7"); ("name", VString "general")])
  /\ resolveChannel Sample.helper
       ([VNull] ++ VFulfilled (VString "7") :: [Sample.candB])
     = ([Awaited VNull; Awaited (VFulfilled (VString "7")); ChannelRead "7"],
        inl [("channelID", VString "7"); ("name", VString "general")])
  /\ channelRead (API SampleMore.helper_down) "9"
     = inr (Error "503 Service Unavailable")
  /\ resolveChannel SampleMore.helper_down
       ([VNull] ++ VString "9" :: [Sample.candA])
     = ([Awaited VNull; Awaited (VString "9"); ChannelRead "9"],
        inr (Error "503 Service Unavailable")).
Proof.
  split; [discriminate|].
  do 4 (split; [reflexivity|]).
  destruct (resolveChannel_id_lookup Sample.helper
              [VNull] (VFulfilled (VString "7")) "7" [Sample.candB])
    as (_ & _ & Hanswer & _);
    [discriminate | reflexivity | reflexivity | reflexivity |].
  destruct (resolveChannel_id_lookup SampleMore.helper_down
              [VNull] (VString "9") "9" [Sample.candA])
    as (_ & _ & _ & Hrejected & _);
    [discriminate | reflexivity | reflexivity | reflexivity |].
  split; [rewrite (Hanswer "7" eq_refl); reflexivity|].
  split; [reflexivity|].
  apply (Hrejected "9"); reflexivity.
Defined.

Lemma resolveChannel_object_ends_witness :
  forallb skipped [VString "general"] = true
  /\ await (VObject [("name", VString "x")]) = inl (VObject [("name", VString "x")])
  /\ truthy (VObject [("name", VString "x")]) = true
  /\ typeof_object (VObject [("name", VString "x")]) = true
  /\ is_channel (VObject [("name", VString "x")]) = false
  /\ resolveChannel Sample.helper
       ([VString "general"] ++ VObject [("name", VString "x")] :: [Sample.candA])
     = ([Awaited (VString "general"); Awaited (VObject [("name", VString "x")]);
         Awaited VUndefined],
        inr genericError).
Proof.
  repeat (split; [reflexivity|]).
  destruct (resolveChannel_object_ends Sample.helper [VString "general"]
              (VObject [("name", VString "x")]) (VObject [("name", VString "x")])
              [Sample.candA]) as [_ E];
    [reflexivity | reflexivity | reflexivity | reflexivity | reflexivity |].
  apply E. reflexivity.
Defined.

Lemma directChannel_self_witness :
  extractID (VString "42") "userID" = inl "42"
  /\ extractID (second_or_default Sample.helper VUndefined) "userID" = inl "42"
  /\ directChannel Sample.helper (VString "42") VUndefined = ([], inr selfError).
Proof.
  repeat (split; [reflexivity|]).
  apply (directChannel_self Sample.helper (VString "42") VUndefined "42");
    reflexivity.
Defined.

End OnSample.

End MessagingTheory.

(* ===================================================================== *)
(** * Properties of the compose entities *)
(* ===================================================================== *)

Module ComposeTheory.
Import Compose.

(** ** Guards and property access *)

Section Engine.
Implicit Types (this t : Fields) (s v : value) (k : string).

Lemma IsOf_getProp v k : IsOf v k = negb (is_undefined (getProp v k)).
Proof. destruct v; reflexivity. Qed.

Lemma ownPropK_lookup {A} k (K : value -> A) props :
  ownPropK k K (K VUndefined) props = K (lookup_prop k props).
Proof.
  induction props as [|[k' v] props IH]; simpl; [reflexivity|].
  destruct (String.eqb k' k); [reflexivity | exact IH].
Qed.

Lemma propK_getProp {A} k (K : value -> A) o :
  propK k K (K VUndefined) o = K (getProp o k).
Proof. destruct o; simpl; try reflexivity; apply ownPropK_lookup. Qed.

(** ** The Apply engine *)

Lemma Apply_cons this s coerce n names :
  Apply this s coerce (n :: names) =
  Apply (if is_undefined (getProp s n) then this
         else <[n := coerce (getProp s n) (field this n)]> this)
        s coerce names.
Proof. reflexivity. Qed.

(** A field that the source does not carry keeps its value. *)
Lemma Apply_absent this s coerce names k :
  getProp s k = VUndefined ->
  Apply this s coerce names !! k = this !! k.
Proof.
  intros Hk. revert this.
  induction names as [|n names IH]; intros this; [reflexivity|].
  rewrite Apply_cons, IH.
  destruct (is_undefined (getProp s n)) eqn:Hn; [reflexivity|].
  destruct (decide (n = k)) as [->|Hne].
  - rewrite Hk in Hn. discriminate.
  - apply lookup_insert_ne. exact Hne.
Qed.

(** A field that is not listed keeps its value. *)
Lemma Apply_unlisted this s coerce names k :
  k ∉ names ->
  Apply this s coerce names !! k = this !! k.
Proof.
  revert this.
  induction names as [|n names IH]; intros this Hk; [reflexivity|].
  apply not_elem_of_cons in Hk as [Hne Hk].
  rewrite Apply_cons, IH by exact Hk.
  destruct (is_undefined (getProp s n)); [reflexivity|].
  apply lookup_insert_ne. congruence.
Qed.

(** A listed field that the source carries takes the coerced value. *)
Lemma Apply_present this s (g : value -> value) names k :
  k ∈ names ->
  is_undefined (getProp s k) = false ->
  Apply this s (fun v _ => g v) names !! k = Some (g (getProp s k)).
Proof.
  intros Hin Hk. revert this.
  induction names as [|n names IH]; intros this; [inversion Hin|].
  rewrite Apply_cons.
  destruct (decide (k ∈ names)) as [Hin'|Hout]; [apply IH; exact Hin'|].
  apply elem_of_cons in Hin as [->|Hin]; [|contradiction].
  rewrite Apply_unlisted by exact Hout.
  rewrite Hk. apply lookup_insert_eq.
Qed.

Lemma overlay_id : overlay (fun this => this).
Proof. intros this. symmetry. apply (left_id_L ∅ (∪)). Qed.

Lemma overlay_insert (F : Fields -> Fields) k v :
  overlay F -> overlay (fun this => <[k := v]> (F this)).
Proof.
  intros HF this. rewrite (HF this), !insert_union_singleton_l.
  apply (assoc_L (∪)).
Qed.

Lemma overlay_if (b : bool) (F G : Fields -> Fields) :
  overlay F -> overlay G -> overlay (fun this => if b then F this else G this).
Proof. intros HF HG this. destruct b; [apply HF | apply HG]. Qed.

Lemma overlay_Apply (F : Fields -> Fields) s (g : value -> value) names :
  overlay F -> overlay (fun this => Apply (F this) s (fun v _ => g v) names).
Proof.
  revert F. induction names as [|n names IH]; intros F HF; [exact HF|].
  intros this. rewrite !Apply_cons.
  destruct (is_undefined (getProp s n)).
  - apply (IH F HF).
  - apply (IH (fun this => <[n := g (getProp s n)]> (F this))).
    apply overlay_insert, HF.
Qed.

(** Laying the same assignments twice is laying them once. *)
Lemma overlay_twice (F : Fields -> Fields) this :
  overlay F -> F (F this) = F this.
Proof.
  intros HF. rewrite (HF (F this)), (HF this), (assoc_L (∪)).
  f_equal. apply (idemp_L (∪)).
Qed.

End Engine.

Ltac overlay_steps :=
  repeat first
    [ exact overlay_id
    | apply overlay_Apply
    | apply overlay_insert
    | apply overlay_if ].


Ltac decide_now :=
  match goal with
  | |- ?P => apply (bool_decide_unpack P); vm_compute; exact I
  end.

(** ** [Namespace] and [ModuleField] *)

Section Entities.
Context `{!Cast, !Builtins}.
Implicit Types (this t : Fields) (n f : value) (k : string).

Lemma is_undefined_true v : is_undefined v = true -> v = VUndefined.
Proof. destruct v; simpl; congruence. Qed.

Lemma Namespace_apply_overlay n : overlay (fun this => Namespace_apply this n).
Proof.
  unfold Namespace_apply. destruct (negb (truthy n)); [exact overlay_id|].
  cbv zeta. unfold coerceID, coerceString, coerceDate, coerceBoolean.
  overlay_steps.
Qed.

Lemma Namespace_apply_absent this n k :
  getProp n k = VUndefined ->
  Namespace_apply this n !! k = this !! k.
Proof.
  intros Hk. unfold Namespace_apply.
  destruct (negb (truthy n)); [reflexivity|]. cbv zeta.
  rewrite !Apply_absent by exact Hk.
  rewrite IsOf_getProp.
  destruct (is_undefined (getProp n "meta")) eqn:Hmeta; cbn [negb].
  - rewrite !Apply_absent by exact Hk. reflexivity.
  - rewrite lookup_insert_ne.
    + rewrite !Apply_absent by exact Hk. reflexivity.
    + intros <-. rewrite Hk in Hmeta. discriminate.
Qed.

Lemma apply_typed_overlay f : overlay (fun this => apply_typed this f).
Proof.
  unfold apply_typed. cbv zeta.
  unfold coerceID, coerceString, coerceNumber, coerceBoolean.
  overlay_steps.
Qed.

Lemma apply_untyped_overlay (F : Fields -> Fields) f :
  overlay F -> overlay (fun this => apply_untyped (F this) f).
Proof. intros HF. unfold apply_untyped. cbv zeta. overlay_steps; exact HF. Qed.

Lemma record_value_access_overlay sys (F : Fields -> Fields) f :
  overlay F -> overlay (fun this => record_value_access sys (F this) f).
Proof.
  intros HF. unfold record_value_access, coerceBoolean.
  destruct sys; overlay_steps; exact HF.
Qed.

(** [ModuleField.apply] for a given outcome of the test [this.isSystem]. *)
Lemma ModuleField_given_overlay sys f :
  overlay (fun this =>
    apply_untyped (record_value_access sys (apply_typed this f) f) f).
Proof.
  apply apply_untyped_overlay, record_value_access_overlay, apply_typed_overlay.
Qed.

Lemma apply_typed_absent this f k :
  getProp f k = VUndefined -> apply_typed this f !! k = this !! k.
Proof.
  intros Hk. unfold apply_typed. cbv zeta.
  destruct (truthy (getProp f "defaultValue")) eqn:Hdv.
  - rewrite lookup_insert_ne.
    + rewrite !Apply_absent by exact Hk. reflexivity.
    + intros <-. rewrite Hk in Hdv. discriminate.
  - rewrite !Apply_absent by exact Hk. reflexivity.
Qed.

Lemma apply_untyped_absent this f k :
  getProp f k = VUndefined -> apply_untyped this f !! k = this !! k.
Proof.
  intros Hk. unfold apply_untyped. cbv zeta. rewrite !IsOf_getProp.
  destruct (is_undefined (getProp f "options")) eqn:Ho;
  destruct (is_undefined (getProp f "kind")) eqn:Hkind; cbn [negb];
    rewrite ?lookup_insert_ne; try reflexivity;
    intros <-; rewrite Hk in *; discriminate.
Qed.

Lemma apply_typed_isSystem this f :
  apply_typed this f !! "isSystem" =
  if is_undefined (getProp f "isSystem") then this !! "isSystem"
  else Some (VBool (truthy (getProp f "isSystem"))).
Proof.
  destruct (is_undefined (getProp f "isSystem")) eqn:Hs.
  - apply apply_typed_absent, is_undefined_true, Hs.
  - unfold apply_typed. cbv zeta.
    assert (Hb : forall t : Fields,
      Apply t f coerceBoolean ["isRequired"; "isPrivate"; "isMulti"; "isSystem"]
        !! "isSystem" = Some (VBool (truthy (getProp f "isSystem")))).
    { intros t. unfold coerceBoolean.
      apply (Apply_present t f (fun v => VBool (truthy v))); [decide_now | exact Hs]. }
    destruct (truthy (getProp f "defaultValue")).
    + rewrite lookup_insert_ne by discriminate. apply Hb.
    + apply Hb.
Qed.

Lemma record_value_access_isSystem sys this f :
  record_value_access sys this f !! "isSystem" = this !! "isSystem".
Proof.
  unfold record_value_access. destruct sys.
  - rewrite !lookup_insert_ne by discriminate. reflexivity.
  - apply Apply_unlisted. decide_now.
Qed.

Lemma apply_untyped_other this f k :
  k <> "kind" -> k <> "options" -> apply_untyped this f !! k = this !! k.
Proof.
  intros Hkind Hopt. unfold apply_untyped. cbv zeta.
  destruct (IsOf f "options"), (IsOf f "kind");
    rewrite ?lookup_insert_ne by congruence; reflexivity.
Qed.

Lemma ModuleField_apply_isSystem this f :
  ModuleField_apply this f !! "isSystem" =
  if truthy f then apply_typed this f !! "isSystem" else this !! "isSystem".
Proof.
  unfold ModuleField_apply. destruct (truthy f); simpl; [|reflexivity].
  unfold apply_record_value_access.
  rewrite apply_untyped_other by discriminate.
  apply record_value_access_isSystem.
Qed.

(** Applying the same source again meets the same [isSystem]. *)
Lemma isSystem_settled this f :
  truthy f = true ->
  field (apply_typed (ModuleField_apply this f) f) "isSystem"
  = field (apply_typed this f) "isSystem".
Proof.
  intros Hf. unfold field.
  rewrite (apply_typed_isSystem (ModuleField_apply this f)).
  rewrite ModuleField_apply_isSystem, Hf.
  destruct (is_undefined (getProp f "isSystem")) eqn:Hs; [reflexivity|].
  rewrite apply_typed_isSystem, Hs. reflexivity.
Qed.

Lemma ModuleField_apply_twice this f :
  ModuleField_apply (ModuleField_apply this f) f = ModuleField_apply this f.
Proof.
  destruct (truthy f) eqn:Hf.
  - pose (G := fun (sys : bool) (this : Fields) =>
        apply_untyped (record_value_access sys (apply_typed this f) f) f).
    assert (HG : forall X : Fields,
      ModuleField_apply X f = G (truthy (field (apply_typed X f) "isSystem")) X).
    { intros X. unfold ModuleField_apply. rewrite Hf. reflexivity. }
    rewrite (HG (ModuleField_apply this f)), (isSystem_settled this f Hf), (HG this).
    exact (overlay_twice (G _) this (ModuleField_given_overlay _ f)).
  - unfold ModuleField_apply. rewrite Hf. reflexivity.
Qed.

End Entities.


(** ** [Page] *)

Section Pages.
Context `{!Cast, !Builtins, !PageBlockClass}.
Implicit Types (reg : Registry) (mk : value -> result Page).
Implicit Types (p q : Page) (t : Fields) (i : value) (k : string).

Ltac page_cbn :=
  cbn [fst snd fields blocks children with_fields set_blocks set_children
       default from_option].

Lemma Page_eta p : mkPage (fields p) (blocks p) (children p) = p.
Proof. destruct p; reflexivity. Qed.

Lemma apply_scalars_overlay i : overlay (fun t => apply_scalars t i).
Proof.
  unfold apply_scalars. cbv zeta.
  unfold coerceID, coerceString, coerceNumber, coerceBoolean. overlay_steps.
Qed.

Lemma apply_stamps_overlay (F : Fields -> Fields) i :
  overlay F -> overlay (fun t => apply_stamps (F t) i).
Proof.
  intros HF. unfold apply_stamps. cbv zeta.
  unfold coerceDate, coerceBoolean. overlay_steps; exact HF.
Qed.

Lemma apply_scalars_absent t i k :
  getProp i k = VUndefined -> apply_scalars t i !! k = t !! k.
Proof.
  intros Hk. unfold apply_scalars. cbv zeta.
  rewrite !Apply_absent by exact Hk. reflexivity.
Qed.

Lemma apply_stamps_absent t i k :
  getProp i k = VUndefined -> apply_stamps t i !! k = t !! k.
Proof.
  intros Hk. unfold apply_stamps. cbv zeta.
  rewrite !Apply_absent by exact Hk. reflexivity.
Qed.

(** The children step as the source writes it. *)
Lemma apply_children_unfold mk (this : Page) i :
  apply_children mk this i =
  let children := getProp i "children" in
  if truthy children then
    let this := set_children [] this in
    if AreObjectsOf children "pageID" then
      match children with
      | VArray items =>
          match mapR mk items with
          | inl cs => (set_children cs this, None)
          | inr e => (this, Some e)
          end
      | _ => (this, None)
      end
    else (this, None)
  else (this, None).
Proof.
  unfold apply_children.
  exact (propK_getProp "children" (fun children =>
    if truthy children then
      if AreObjectsOf children "pageID" then
        match children with
        | VArray items =>
            match mapR mk items with
            | inl cs => (set_children cs (set_children [] this), None)
            | inr e => (set_children [] this, Some e)
            end
        | _ => (set_children [] this, None)
        end
      else (set_children [] this, None)
    else (this, None)) i).
Qed.

(** Each collection step overwrites its collection or leaves it, and
    raises or not, as the source alone decides. *)
Lemma apply_blocks_shape reg i :
  exists (ub : option (list PageBlock)) (eb : option error),
    forall q, apply_blocks reg q i
              = (mkPage (fields q) (default (blocks q) ub) (children q), eb).
Proof.
  unfold apply_blocks. cbv zeta.
  destruct (truthy (getProp i "blocks"));
    [|exists None, None; intros q; rewrite Page_eta; reflexivity].
  destruct (AreObjectsOf (getProp i "blocks") "kind"
            && AreObjectsOf (getProp i "blocks") "xywh");
    [|exists (Some []), None; reflexivity].
  destruct (getProp i "blocks"); try (exists (Some []), None; reflexivity).
  destruct (mapR (PageBlockMaker reg) items) as [bs|e].
  - exists (Some bs), None. reflexivity.
  - exists (Some []), (Some e). reflexivity.
Qed.

Lemma apply_children_shape mk i :
  exists (uc : option (list Page)) (ec : option error),
    forall q, apply_children mk q i
              = (mkPage (fields q) (blocks q)
                   (from_option Some (children q) uc), ec).
Proof.
  setoid_rewrite apply_children_unfold. cbv zeta.
  destruct (truthy (getProp i "children"));
    [|exists None, None; intros q; rewrite Page_eta; reflexivity].
  destruct (AreObjectsOf (getProp i "children") "pageID");
    [|exists (Some []), None; reflexivity].
  destruct (getProp i "children"); try (exists (Some []), None; reflexivity).
  destruct (mapR mk items) as [cs|e].
  - exists (Some cs), None. reflexivity.
  - exists (Some []), (Some e). reflexivity.
Qed.

Lemma apply_blocks_falsy reg q i :
  truthy (getProp i "blocks") = false -> apply_blocks reg q i = (q, None).
Proof. intros Hb. unfold apply_blocks. cbv zeta. rewrite Hb. reflexivity. Qed.

Lemma apply_children_falsy mk q i :
  truthy (getProp i "children") = false -> apply_children mk q i = (q, None).
Proof. intros Hc. rewrite apply_children_unfold. cbv zeta. rewrite Hc. reflexivity. Qed.

Lemma forallb_existsb_negb {A} (f : A -> bool) (l : list A) :
  existsb (fun x => negb (f x)) l = true -> forallb f l = false.
Proof.
  induction l as [|x l IH]; simpl; [discriminate|].
  destruct (f x); simpl; [exact IH | reflexivity].
Qed.

(** A blocks array with an element that lacks [kind] (or lacks [xywh])
    leaves the collection empty and raises nothing. *)
Lemma apply_blocks_dropped reg q i items name :
  name = "kind" \/ name = "xywh" ->
  getProp i "blocks" = VArray items ->
  existsb (fun b => negb (IsOf b name)) items = true ->
  apply_blocks reg q i = (set_blocks [] q, None).
Proof.
  intros Hname Hb Hex. unfold apply_blocks. cbv zeta. rewrite Hb. simpl.
  apply forallb_existsb_negb in Hex.
  destruct Hname as [-> | ->]; rewrite Hex; [reflexivity|].
  rewrite andb_false_r. reflexivity.
Qed.

Lemma apply_children_dropped mk q i items :
  getProp i "children" = VArray items ->
  existsb (fun c => negb (IsOf c "pageID")) items = true ->
  apply_children mk q i = (set_children [] q, None).
Proof.
  intros Hc Hex. rewrite apply_children_unfold. cbv zeta. rewrite Hc. simpl.
  apply forallb_existsb_negb in Hex. rewrite Hex. reflexivity.
Qed.

Lemma Page_apply_with_twice reg mk p i :
  Page_apply_with reg mk (Page_apply_with reg mk p i).1 i
  = Page_apply_with reg mk p i.
Proof.
  destruct (apply_blocks_shape reg i) as (ub & eb & Hb).
  destruct (apply_children_shape mk i) as (uc & ec & Hc).
  pose proof (fun f => overlay_twice _ f (apply_scalars_overlay i)) as HS.
  pose proof (fun f => overlay_twice _ f
                (apply_stamps_overlay _ i (apply_scalars_overlay i))) as HT.
  cbv beta in HS, HT.
  unfold Page_apply_with.
  destruct (negb (truthy i)); [reflexivity|].
  cbv zeta.
  destruct eb as [e|]; destruct ec as [e'|];
    repeat (first [rewrite Hb | rewrite Hc]; page_cbn);
    unfold with_fields; page_cbn;
    rewrite ?HS, ?HT; destruct ub, uc; reflexivity.
Qed.

(** The fields after [apply] are the given ones under the assignments of
    lines 51-54, followed or not by those of lines 70-75. *)
Lemma Page_apply_with_fields reg mk p i :
  let r := fields (Page_apply_with reg mk p i).1 in
  r = fields p \/ r = apply_scalars (fields p) i
  \/ r = apply_stamps (apply_scalars (fields p) i) i.
Proof.
  destruct (apply_blocks_shape reg i) as (ub & eb & Hb).
  destruct (apply_children_shape mk i) as (uc & ec & Hc).
  unfold Page_apply_with.
  destruct (negb (truthy i)); simpl; [left; reflexivity|].
  cbv zeta. rewrite Hb. destruct eb; [right; left; reflexivity|].
  rewrite Hc. destruct ec; [right; left; reflexivity|].
  right; right; reflexivity.
Qed.

Lemma Page_apply_with_absent reg mk p i k :
  getProp i k = VUndefined ->
  fields (Page_apply_with reg mk p i).1 !! k = fields p !! k.
Proof.
  intros Hk.
  destruct (Page_apply_with_fields reg mk p i) as [-> | [-> | ->]].
  - reflexivity.
  - apply apply_scalars_absent, Hk.
  - rewrite apply_stamps_absent by exact Hk. apply apply_scalars_absent, Hk.
Qed.

Lemma Page_apply_with_blocks_absent reg mk p i :
  truthy (getProp i "blocks") = false ->
  blocks (Page_apply_with reg mk p i).1 = blocks p.
Proof.
  intros Hb. destruct (apply_children_shape mk i) as (uc & ec & Hc).
  unfold Page_apply_with.
  destruct (negb (truthy i)); simpl; [reflexivity|].
  cbv zeta. rewrite apply_blocks_falsy by exact Hb. rewrite Hc.
  destruct ec; reflexivity.
Qed.

Lemma Page_apply_with_children_absent reg mk p i :
  truthy (getProp i "children") = false ->
  children (Page_apply_with reg mk p i).1 = children p.
Proof.
  intros Hc. destruct (apply_blocks_shape reg i) as (ub & eb & Hb).
  unfold Page_apply_with.
  destruct (negb (truthy i)); simpl; [reflexivity|].
  cbv zeta. rewrite Hb. destruct eb; [reflexivity|].
  rewrite apply_children_falsy by exact Hc. reflexivity.
Qed.

Lemma Page_new_unfold reg i :
  Page_new reg i =
  match Page_apply reg Page_default i with
  | (p, None) => inl p
  | (_, Some e) => inr e
  end.
Proof. destruct i; reflexivity. Qed.


(** ** The claims about hydration and validation *)

(** C2 (as amended). Hydrating a page from
    [{ blocks: [{kind:'X', xywh:[0,0,1,1]}, {no-kind-field:true}] }]
    leaves a page without blocks, whatever kinds are registered ([X]
    among them): the second element fails the guard and the whole array
    is dropped; no other field changes and nothing is raised. *)
Theorem Page_apply_example_drops_all reg p :
  Page_apply reg p Sample.example_source = (set_blocks [] p, None).
Proof. destruct p. reflexivity. Qed.

Lemma getProp_array_truthy i k items : getProp i k = VArray items -> truthy i = true.
Proof. destruct i; simpl; try discriminate; reflexivity. Qed.

(** What [apply_blocks] and [apply_children] raise is what constructing
    the elements of an array that passes its guard raises. *)
Lemma apply_blocks_raises reg q i :
  (apply_blocks reg q i).2 =
  match getProp i "blocks" with
  | VArray bs =>
      if AreObjectsOf (VArray bs) "kind" && AreObjectsOf (VArray bs) "xywh"
      then match mapR (PageBlockMaker reg) bs with
           | inl _ => None
           | inr e => Some e
           end
      else None
  | _ => None
  end.
Proof.
  unfold apply_blocks. cbv zeta.
  destruct (getProp i "blocks") as [| | | | |bs| | | |]; simpl;
    repeat match goal with
           | |- context [if ?b then _ else _] => destruct b; simpl
           end; try reflexivity.
  destruct (mapR (PageBlockMaker reg) bs); reflexivity.
Qed.

Lemma apply_children_raises mk q i :
  (apply_children mk q i).2 =
  match getProp i "children" with
  | VArray cs =>
      if AreObjectsOf (VArray cs) "pageID"
      then match mapR mk cs with
           | inl _ => None
           | inr e => Some e
           end
      else None
  | _ => None
  end.
Proof.
  rewrite apply_children_unfold. cbv zeta.
  destruct (getProp i "children") as [| | | | |cs| | | |]; simpl;
    repeat match goal with
           | |- context [if ?b then _ else _] => destruct b; simpl
           end; try reflexivity.
  destruct (mapR mk cs); reflexivity.
Qed.

(** C3 (as amended). Guard drop: when the blocks array of the source has
    an element without [kind], the guarded assignment of lines 56-61
    leaves [blocks] empty and raises nothing, and [blocks] is empty after
    the call.  The call then raises exactly what constructing the
    sub-pages raises: the error of [new Page] on an element of a children
    array that passes its guard, and nothing when the source has no
    children, when they fail their guard as well, or when every sub-page
    constructs, in which case they are the children of the page.  When the
    children array has an element without [pageID], the guarded assignment
    of lines 63-68 leaves [children] empty and raises nothing; the call
    raises exactly what constructing the blocks raises, and if that is
    nothing, [children] is empty after the call. *)
Theorem Page_apply_guard_drop reg p i items :
  (getProp i "blocks" = VArray items ->
   existsb (fun b => negb (IsOf b "kind")) items = true ->
   (forall q, apply_blocks reg q i = (set_blocks [] q, None))
   /\ blocks (Page_apply reg p i).1 = []
   /\ (Page_apply reg p i).2 =
      match getProp i "children" with
      | VArray cs =>
          if AreObjectsOf (VArray cs) "pageID"
          then match mapR (Page_new reg) cs with
               | inl _ => None
               | inr e => Some e
               end
          else None
      | _ => None
      end
   /\ (truthy (getProp i "children") = false
       \/ AreObjectsOf (getProp i "children") "pageID" = false ->
       (Page_apply reg p i).2 = None)
   /\ (forall cs subs,
         getProp i "children" = VArray cs ->
         mapR (Page_new reg) cs = inl subs ->
         (Page_apply reg p i).2 = None
         /\ (AreObjectsOf (VArray cs) "pageID" = true ->
             children (Page_apply reg p i).1 = Some subs)))
  /\
  (getProp i "children" = VArray items ->
   existsb (fun c => negb (IsOf c "pageID")) items = true ->
   (forall q, apply_children (Page_new reg) q i = (set_children [] q, None))
   /\ (Page_apply reg p i).2 =
      match getProp i "blocks" with
      | VArray bs =>
          if AreObjectsOf (VArray bs) "kind" && AreObjectsOf (VArray bs) "xywh"
          then match mapR (PageBlockMaker reg) bs with
               | inl _ => None
               | inr e => Some e
               end
          else None
      | _ => None
      end
   /\ ((apply_blocks reg p i).2 = None ->
       children (Page_apply reg p i).1 = Some []
       /\ (Page_apply reg p i).2 = None)).
Proof.
  split.
  - intros Hb Hex.
    assert (Hdrop : forall q, apply_blocks reg q i = (set_blocks [] q, None)).
    { intros q. apply (apply_blocks_dropped reg q i items "kind"); auto. }
    pose proof (getProp_array_truthy _ _ _ Hb) as Hi.
    destruct (apply_children_shape (Page_new reg) i) as (uc & ec & Hc).
    pose proof (apply_children_raises (Page_new reg) p i) as Hraises.
    rewrite Hc in Hraises. cbn [snd] in Hraises.
    assert (Herr : (Page_apply reg p i).2 = ec).
    { unfold Page_apply, Page_apply_with.
      rewrite Hi, Hdrop. cbn [negb]. cbv zeta. rewrite Hc.
      destruct ec; reflexivity. }
    split; [exact Hdrop|]. split; [|split; [|split]].
    + unfold Page_apply, Page_apply_with.
      rewrite Hi, Hdrop. cbn [negb]. cbv zeta. rewrite Hc.
      destruct ec; reflexivity.
    + rewrite Herr. exact Hraises.
    + rewrite Herr, Hraises. intros [Hfalsy | Hguard].
      * destruct (getProp i "children"); try reflexivity. discriminate Hfalsy.
      * destruct (getProp i "children"); try reflexivity.
        rewrite Hguard. reflexivity.
    + intros cs subs Hcs Hsubs. split.
      * rewrite Herr, Hraises, Hcs, Hsubs.
        destruct (AreObjectsOf (VArray cs) "pageID"); reflexivity.
      * intros Hguard. unfold Page_apply, Page_apply_with.
        rewrite Hi, Hdrop. cbn [negb]. cbv zeta.
        rewrite apply_children_unfold. cbv zeta.
        rewrite Hcs, Hguard, Hsubs. reflexivity.
  - intros Hc Hex.
    assert (Hdrop : forall q,
      apply_children (Page_new reg) q i = (set_children [] q, None)).
    { intros q. apply (apply_children_dropped _ q i items); auto. }
    pose proof (getProp_array_truthy _ _ _ Hc) as Hi.
    destruct (apply_blocks_shape reg i) as (ub & eb & Hb).
    pose proof (apply_blocks_raises reg p i) as Hraises.
    rewrite Hb in Hraises. cbn [snd] in Hraises.
    split; [exact Hdrop|]. split.
    + rewrite <- Hraises. unfold Page_apply, Page_apply_with.
      rewrite Hi, Hb, Hdrop. destruct eb; reflexivity.
    + rewrite Hb. cbn [snd]. intros ->.
      unfold Page_apply, Page_apply_with.
      rewrite Hi, Hb, Hdrop. split; reflexivity.
Qed.

(** C9. Idempotence: applying a raw object a second time changes nothing,
    for a page (the state that [apply] leaves and the exception it
    raises, if any), for a namespace and for a module field. *)
Theorem apply_idempotent reg p (t : Fields) r :
  Page_apply reg (Page_apply reg p r).1 r = Page_apply reg p r
  /\ Namespace_apply (Namespace_apply t r) r = Namespace_apply t r
  /\ ModuleField_apply (ModuleField_apply t r) r = ModuleField_apply t r.
Proof.
  split; [apply Page_apply_with_twice|]. split.
  - apply (overlay_twice _ t (Namespace_apply_overlay r)).
  - apply ModuleField_apply_twice.
Qed.

Lemma record_value_access_absent sys t f k :
  getProp f k = VUndefined ->
  sys = false \/ (k <> "canUpdateRecordValue" /\ k <> "canReadRecordValue") ->
  record_value_access sys t f !! k = t !! k.
Proof.
  intros Hk Hcase. unfold record_value_access.
  destruct sys; [|apply Apply_absent, Hk].
  destruct Hcase as [Hs | [Hcu Hcr]]; [discriminate|].
  rewrite !lookup_insert_ne by congruence. reflexivity.
Qed.

(** C4 (as amended). Partial update: a field that the raw object does not
    carry keeps its value in a page (its fields, its blocks and its
    children) and in a namespace; in a module field it keeps its value
    unless it is [canUpdateRecordValue] or [canReadRecordValue] of a field
    that is a system field after the update, and these two are then
    [true]. *)
Theorem apply_partial_update reg p (t : Fields) r k :
  getProp r k = VUndefined ->
  fields (Page_apply reg p r).1 !! k = fields p !! k
  /\ (k = "blocks" -> blocks (Page_apply reg p r).1 = blocks p)
  /\ (k = "children" -> children (Page_apply reg p r).1 = children p)
  /\ Namespace_apply t r !! k = t !! k
  /\ ((k <> "canUpdateRecordValue" /\ k <> "canReadRecordValue")
      \/ truthy (field (ModuleField_apply t r) "isSystem") = false ->
      ModuleField_apply t r !! k = t !! k)
  /\ (truthy r = true ->
      truthy (field (ModuleField_apply t r) "isSystem") = true ->
      ModuleField_apply t r !! "canUpdateRecordValue" = Some (VBool true)
      /\ ModuleField_apply t r !! "canReadRecordValue" = Some (VBool true)).
Proof.
  intros Hk. split; [apply Page_apply_with_absent, Hk|].
  split; [intros ->; apply Page_apply_with_blocks_absent; rewrite Hk; reflexivity|].
  split; [intros ->; apply Page_apply_with_children_absent; rewrite Hk; reflexivity|].
  split; [apply Namespace_apply_absent, Hk|].
  assert (Hsys : truthy r = true ->
    field (ModuleField_apply t r) "isSystem" = field (apply_typed t r) "isSystem").
  { intros Hr. unfold field. rewrite ModuleField_apply_isSystem, Hr. reflexivity. }
  split.
  - intros Hcase. unfold ModuleField_apply.
    destruct (truthy r) eqn:Hr; [|reflexivity]. cbn [negb]. cbv zeta.
    rewrite apply_untyped_absent by exact Hk.
    unfold apply_record_value_access.
    rewrite record_value_access_absent; [apply apply_typed_absent, Hk | exact Hk |].
    destruct Hcase as [Hne | Hfalse]; [right; exact Hne | left].
    rewrite <- Hsys by reflexivity. exact Hfalse.
  - intros Hr Htrue. rewrite (Hsys Hr) in Htrue.
    unfold ModuleField_apply. rewrite Hr. cbn [negb]. cbv zeta.
    unfold apply_record_value_access. rewrite Htrue.
    rewrite !apply_untyped_other by discriminate.
    unfold record_value_access. split.
    + rewrite lookup_insert_ne by discriminate. apply lookup_insert_eq.
    + apply lookup_insert_eq.
Qed.

(** C8 (as amended). Validation order: for blocks [[c1; c2; c3]] with [c1]
    and [c3] invalid and [c2] valid, [validate] returns the messages of
    [c1] followed by those of [c3]; the scalar fields and the sub-pages in
    [children] add nothing.  [validate] only reads the page: it is a
    function of the page that returns the messages. *)
Theorem Page_validate_order p c1 c2 c3 :
  blocks p = [c1; c2; c3] ->
  PageBlock_validate c1 <> [] ->
  PageBlock_validate c2 = [] ->
  PageBlock_validate c3 <> [] ->
  Page_validate p = PageBlock_validate c1 ++ PageBlock_validate c3
  /\ (forall fs cs, Page_validate (mkPage fs (blocks p) cs) = Page_validate p).
Proof.
  intros Hb _ H2 _. unfold Page_validate. rewrite Hb. simpl.
  rewrite H2, app_nil_r. split; reflexivity.
Qed.

End Pages.


(** ** The theorems on the reference instances *)

Section OnSample.
#[local] Existing Instance Sample.cast.
#[local] Existing Instance Sample.builtins.
#[local] Existing Instance Sample.pageBlocks.

(** C2 (as stated). With [X] registered, the page hydrated from the
    example has no block at all, not one. *)
Lemma Page_example_one_block_counterexample :
  is_Some (Sample.registry !! "X")
  /\ blocks (Page_apply Sample.registry Page_default Sample.example_source).1 = []
  /\ length (blocks (Page_apply Sample.registry Page_default
                       Sample.example_source).1) <> 1.
Proof.
  split; [eexists; reflexivity|].
  split; [reflexivity | discriminate].
Qed.

(** C3 (as stated). The blocks array has an element without [kind], and
    yet the call raises an error: a sub-page carries a block of an
    unregistered kind. *)
Lemma Page_guard_drop_raises_counterexample :
  getProp Sample.mixed_source "blocks" = VArray [VObject []]
  /\ existsb (fun b => negb (IsOf b "kind")) [VObject []] = true
  /\ (Page_apply Sample.registry Page_default Sample.mixed_source).2
     = Some unknownKind.
Proof. repeat split. Qed.

Lemma Page_apply_guard_drop_witness :
  blocks (Page_apply Sample.registry Page_default Sample.example_source).1 = []
  /\ (Page_apply Sample.registry Page_default Sample.example_source).2 = None
  /\ blocks (Page_apply Sample.registry SampleSources.home_page
               SampleSources.dropped_blocks_source).1 = []
  /\ (Page_apply Sample.registry SampleSources.home_page
        SampleSources.dropped_blocks_source).2 = None
  /\ (exists sub,
        Page_new Sample.registry (VObject [("pageID", VString "1")]) = inl sub
        /\ children (Page_apply Sample.registry SampleSources.home_page
                       SampleSources.dropped_blocks_source).1 = Some [sub])
  /\ (Page_apply Sample.registry SampleSources.home_page
        Sample.mixed_source).2 = Some unknownKind.
Proof.
  destruct (Page_apply_guard_drop Sample.registry Page_default
              Sample.example_source
              [VObject [("kind", VString "X");
                        ("xywh", VArray [VNumber 0; VNumber 0; VNumber 1; VNumber 1])];
               VObject [("no-kind-field", VBool true)]]) as [Hblocks _].
  destruct Hblocks as (_ & Hempty & _ & Hquiet & _); [reflexivity | reflexivity |].
  destruct (Page_apply_guard_drop Sample.registry SampleSources.home_page
              SampleSources.dropped_blocks_source [VObject []]) as [Hdropped _].
  destruct Hdropped as (_ & Hempty' & _ & _ & Hsubs); [reflexivity | reflexivity |].
  destruct (Page_apply_guard_drop Sample.registry SampleSources.home_page
              Sample.mixed_source [VObject []]) as [Hmixed _].
  destruct Hmixed as (_ & _ & Hraised & _); [reflexivity | reflexivity |].
  pose (sub := match Page_new Sample.registry
                        (VObject [("pageID", VString "1")]) with
               | inl made => made
               | inr _ => Page_default
               end).
  destruct (Hsubs [VObject [("pageID", VString "1")]] [sub])
    as [Hnone Hchildren]; [reflexivity | reflexivity |].
  split; [exact Hempty|].
  split; [apply Hquiet; left; reflexivity|].
  split; [exact Hempty'|].
  split; [exact Hnone|].
  split; [exists sub; split; [reflexivity | apply Hchildren; reflexivity]|].
  rewrite Hraised. reflexivity.
Defined.

(** C4 (as stated). [{ isSystem: true }] does not carry
    [canUpdateRecordValue], and applying it to a fresh module field turns
    that field from [false] to [true]. *)
Lemma ModuleField_partial_update_counterexample :
  getProp Sample.system_source "canUpdateRecordValue" = VUndefined
  /\ ModuleField_default !! "canUpdateRecordValue" = Some (VBool false)
  /\ ModuleField_apply ModuleField_default Sample.system_source
       !! "canUpdateRecordValue" = Some (VBool true).
Proof. repeat split. Qed.

Lemma apply_partial_update_witness :
  getProp SampleSources.rename_source "title" = VUndefined
  /\ fields Page_default !! "title" = Some (VString "")
  /\ fields SampleSources.home_page !! "title" = Some (VString "Home")
  /\ fields (Page_apply Sample.registry SampleSources.home_page
               SampleSources.rename_source).1 !! "title" = Some (VString "Home")
  /\ fields (Page_apply Sample.registry SampleSources.home_page
               SampleSources.rename_source).1 !! "handle" = Some (VString "home")
  /\ blocks (Page_apply Sample.registry SampleSources.home_page
               SampleSources.rename_source).1
     = [Sample.block1; Sample.block2; Sample.block3]
  /\ children (Page_apply Sample.registry SampleSources.home_page
                 SampleSources.rename_source).1 = Some [Sample.sub1]
  /\ Namespace_default !! "name" = Some (VString "")
  /\ Namespace_apply SampleSources.shop_namespace SampleSources.rename_source
       !! "name" = Some (VString "Shop")
  /\ Namespace_apply SampleSources.shop_namespace SampleSources.rename_source
       !! "slug" = Some (VString "shop")
  /\ ModuleField_default !! "canReadRecordValue" = Some (VBool false)
  /\ ModuleField_apply SampleSources.email_field SampleSources.rename_source
       !! "name" = Some (VString "email")
  /\ ModuleField_apply SampleSources.email_field SampleSources.rename_source
       !! "label" = Some (VString "E-mail")
  /\ ModuleField_apply SampleSources.email_field SampleSources.rename_source
       !! "canReadRecordValue" = Some (VBool true)
  /\ ModuleField_apply SampleSources.email_field Sample.system_source
       !! "name" = Some (VString "email")
  /\ ModuleField_apply SampleSources.email_field Sample.system_source
       !! "canUpdateRecordValue" = Some (VBool true).
Proof.
  destruct (apply_partial_update Sample.registry SampleSources.home_page
              SampleSources.shop_namespace SampleSources.rename_source "title")
    as (Htitle & _); [reflexivity|].
  destruct (apply_partial_update Sample.registry SampleSources.home_page
              SampleSources.shop_namespace SampleSources.rename_source "blocks")
    as (_ & Hblocks & _); [reflexivity|].
  destruct (apply_partial_update Sample.registry SampleSources.home_page
              SampleSources.shop_namespace SampleSources.rename_source "children")
    as (_ & _ & Hchildren & _); [reflexivity|].
  destruct (apply_partial_update Sample.registry SampleSources.home_page
              SampleSources.shop_namespace SampleSources.rename_source "name")
    as (_ & _ & _ & Hnamespace & _); [reflexivity|].
  destruct (apply_partial_update Sample.registry SampleSources.home_page
              SampleSources.email_field SampleSources.rename_source "name")
    as (_ & _ & _ & _ & Hname & _); [reflexivity|].
  destruct (apply_partial_update Sample.registry SampleSources.home_page
              SampleSources.email_field SampleSources.rename_source
              "canReadRecordValue")
    as (_ & _ & _ & _ & Hread & _); [reflexivity|].
  destruct (apply_partial_update Sample.registry SampleSources.home_page
              SampleSources.email_field Sample.system_source "name")
    as (_ & _ & _ & _ & Hsysname & Hsystem); [reflexivity|].
  split; [reflexivity|]. split; [reflexivity|]. split; [reflexivity|].
  split; [rewrite Htitle; reflexivity|].
  split; [reflexivity|].
  split; [rewrite Hblocks; reflexivity|].
  split; [rewrite Hchildren; reflexivity|].
  split; [reflexivity|].
  split; [rewrite Hnamespace; reflexivity|].
  split; [reflexivity|].
  split; [reflexivity|].
  split; [rewrite Hname; [reflexivity | left; split; discriminate]|].
  split; [reflexivity|].
  split; [rewrite Hread; [reflexivity | right; reflexivity]|].
  split; [rewrite Hsysname; [reflexivity | left; split; discriminate]|].
  apply Hsystem; reflexivity.
Defined.

(** C8 (as stated). The sub-pages in [children] are [[c1; c2; c3]] with
    [c1] and [c3] invalid and [c2] valid, and [validate] returns no
    message: it walks the blocks of the page, of which there are none. *)
Lemma Page_validate_children_counterexample :
  children Sample.three_children = Some [Sample.sub1; Sample.sub2; Sample.sub3]
  /\ Page_validate Sample.sub1 = ["first"]
  /\ Page_validate Sample.sub2 = []
  /\ Page_validate Sample.sub3 = ["third"; "third again"]
  /\ Page_validate Sample.three_children = [].
Proof. repeat split. Qed.

Lemma Page_validate_order_witness :
  PageBlock_validate Sample.block1 <> []
  /\ PageBlock_validate Sample.block2 = []
  /\ PageBlock_validate Sample.block3 <> []
  /\ Page_validate Sample.three_blocks
     = ["first"; "third"; "third again"].
Proof.
  split; [discriminate|]. split; [reflexivity|]. split; [discriminate|].
  destruct (Page_validate_order
              Sample.three_blocks
              Sample.block1 Sample.block2 Sample.block3) as [Horder _];
    [reflexivity | discriminate | reflexivity | discriminate |].
  rewrite Horder. reflexivity.
Defined.

End OnSample.

End ComposeTheory.

(* ===================================================================== *)
(** * Further properties of the messaging helper *)
(* ===================================================================== *)

Module MessagingExtra.
Import Messaging MessagingCalls MessagingTheory.

Section Lookups.
Context `{!Cast, !Shared, !ChannelClass}.
Implicit Types (this : MessagingHelper) (c v : value) (args : list value).


Lemma bind_lift {A B} (a : A) (k : A -> M B) :
  (x <- lift (inl a) ;; k x) = k a.
Proof. unfold bind, lift. destruct (k a). reflexivity. Qed.

Lemma saveChannel_await this c :
  saveChannel this c =
  match await c with
  | inl v => saveChannel this v
  | inr e => throw e
  end.
Proof.
  unfold saveChannel. rewrite awaitK_await.
  destruct (await c) as [v|e] eqn:Hc; [|reflexivity].
  rewrite awaitK_await, (await_settled _ _ Hc). reflexivity.
Qed.

(** X2. [saveChannel] awaits its argument and then sends exactly one
    request, whatever the API answers: a [channelCreate] when the
    [channelID] of the channel is fresh and a [channelUpdate] otherwise,
    with the payload [kv(channel)]. *)
Theorem saveChannel_one_request this c v :
  await c = inl v ->
  v <> VUndefined -> v <> VNull ->
  trace (saveChannel this c)
  = [if isFresh (getProp v "channelID")
     then ChannelCreate (kv v) else ChannelUpdate (kv v)].
Proof.
  intros Hc Hu Hn. rewrite saveChannel_await, Hc.
  unfold saveChannel. rewrite awaitK_await, (await_settled _ _ Hc).
  assert (Hbody :
    forall (ev : event) (r : result value),
      trace (tell ev ;;; x <- lift r ;; lift (newChannel x)) = [ev]).
  { intros ev [x|e]; unfold tell, lift, bind, trace; simpl;
      [destruct (newChannel x)|]; reflexivity. }
  destruct v; try congruence;
    destruct (isFresh _); apply Hbody.
Qed.

(** X3. [saveChannel] sends no request for a promise that rejects (the
    call rejects with its reason) nor for a promise of [undefined] or
    [null] (the call rejects with a [TypeError]). *)
Theorem saveChannel_unusable this c :
  (forall e, await c = inr e -> saveChannel this c = ([], inr e))
  /\ (await c = inl VUndefined \/ await c = inl VNull ->
      trace (saveChannel this c) = []
      /\ exists e, outcome (saveChannel this c) = inr e).
Proof.
  split.
  - intros e He. rewrite saveChannel_await, He. reflexivity.
  - intros [Hc | Hc]; rewrite saveChannel_await, Hc;
      (split; [reflexivity | eexists; reflexivity]).
Qed.

(** X4. [directChannel] between two different users is [saveChannel] of
    the group channel whose members are the two identifiers, the first
    user's first: one request, a create or an update as [isFresh] says of
    the [channelID] that this object does not have. *)
Theorem directChannel_distinct this first second id1 id2 :
  extractID first "userID" = inl id1 ->
  extractID (second_or_default this second) "userID" = inl id2 ->
  id1 <> id2 ->
  let group := VObject [("type", VString "group");
                        ("members", VArray [VString id1; VString id2])] in
  directChannel this first second = saveChannel this group
  /\ trace (directChannel this first second)
     = [if isFresh VUndefined
        then ChannelCreate (kv group) else ChannelUpdate (kv group)].
Proof.
  intros Hfirst Hsecond Hne group.
  assert (E : directChannel this first second = saveChannel this group).
  { unfold directChannel. rewrite Hfirst, Hsecond, !bind_lift.
    destruct (String.eqb_spec id1 id2); [contradiction | reflexivity]. }
  split; [exact E|]. rewrite E.
  apply (saveChannel_one_request this group group); [reflexivity | discriminate..].
Qed.

(** X5. [directChannel] sends nothing when [extractID] rejects one of the
    users: the call rejects with the error for the first user, or else
    with the error for the second. *)
Theorem directChannel_invalid_user this first second :
  (forall e, extractID first "userID" = inr e ->
     directChannel this first second = ([], inr e))
  /\ (forall id e, extractID first "userID" = inl id ->
        extractID (second_or_default this second) "userID" = inr e ->
        directChannel this first second = ([], inr e)).
Proof.
  split.
  - intros e He. unfold directChannel. rewrite He. reflexivity.
  - intros id e Hid He. unfold directChannel. rewrite Hid, He. reflexivity.
Qed.

(** X6. A [Channel] instance that the loop reaches is the result of
    [resolveChannel], without a remote call; the candidates behind it are
    not awaited. *)
Theorem resolveChannel_instance this pre c ch rest :
  forallb skipped pre = true ->
  await c = inl (VChannel ch) ->
  resolveChannel this (pre ++ c :: rest)
  = (map Awaited pre ++ [Awaited c], inl ch).
Proof.
  intros Hpre Hc.
  rewrite (skipped_prefix _ _ _ Hpre), resolveChannel_unfold, bind_tell, Hc.
  reflexivity.
Qed.

(** X7. A candidate promise that rejects rejects [resolveChannel] with
    its reason: no remote call is made and the candidates behind it are
    not awaited. *)
Theorem resolveChannel_rejected_candidate this pre c e rest :
  forallb skipped pre = true ->
  await c = inr e ->
  resolveChannel this (pre ++ c :: rest)
  = (map Awaited pre ++ [Awaited c], inr e).
Proof.
  intros Hpre Hc.
  rewrite (skipped_prefix _ _ _ Hpre), resolveChannel_unfold, bind_tell, Hc.
  reflexivity.
Qed.

(** X8. A candidate promise resolves as the value it fulfils with does:
    [resolveChannel] has the same outcome and, behind the first awaited
    candidate, the same trace. *)
Theorem resolveChannel_awaits this c v rest :
  await c = inl v ->
  outcome (resolveChannel this (c :: rest))
  = outcome (resolveChannel this (v :: rest))
  /\ tail (trace (resolveChannel this (c :: rest)))
     = tail (trace (resolveChannel this (v :: rest))).
Proof.
  intros Hc. rewrite !resolveChannel_unfold, !bind_tell.
  rewrite Hc, (await_settled _ _ Hc). split; reflexivity.
Qed.

(** X9. An object that is no [Channel] and whose [channelID] is an
    identifier-shaped string resolves by the lookup of that identifier. *)
Theorem resolveChannel_object_id this pre c props s rest :
  IsCortezaID "" = false ->
  forallb skipped pre = true ->
  await c = inl (VObject props) ->
  await (lookup_prop "channelID" props) = inl (VString s) ->
  IsCortezaID s = true ->
  resolveChannel this (pre ++ c :: rest)
  = (map Awaited pre
       ++ Awaited c :: Awaited (lookup_prop "channelID" props)
       :: trace (findChannelByID this (VString s)),
     outcome (findChannelByID this (VString s))).
Proof.
  intros Hempty Hpre Hc Hid Hs.
  assert (Ht : truthy (VString s) = true).
  { simpl. destruct (String.eqb_spec s ""); [congruence | reflexivity]. }
  rewrite (skipped_prefix _ _ _ Hpre), resolveChannel_unfold, bind_tell, Hc.
  cbn [truthy negb is_id_string typeof_object getProp].
  rewrite resolveChannel_unfold, bind_tell, Hid, Ht.
  cbn [negb is_id_string]. rewrite Hs. reflexivity.
Qed.


(** ** At most one request *)

(** Induction on a value and on the values it holds. *)
Lemma value_nested_ind (P : value -> Prop) :
  P VUndefined -> P VNull -> (forall b, P (VBool b)) ->
  (forall n, P (VNumber n)) -> (forall s, P (VString s)) ->
  (forall items, Forall P items -> P (VArray items)) ->
  (forall props, Forall (fun kv => P kv.2) props -> P (VObject props)) ->
  (forall props, Forall (fun kv => P kv.2) props -> P (VChannel props)) ->
  (forall v, P v -> P (VFulfilled v)) ->
  (forall e, P (VRejected e)) ->
  forall v, P v.
Proof.
  intros Hu Hn Hb Hz Hs Ha Ho Hc Hf Hr.
  fix IH 1. intros [ | | b | n | s | items | props | props | v | e].
  - exact Hu.
  - exact Hn.
  - apply Hb.
  - apply Hz.
  - apply Hs.
  - apply Ha.
    induction items as [|x items IHitems]; constructor; [apply IH | exact IHitems].
  - apply Ho.
    induction props as [|[k x] props IHprops]; constructor; [apply IH | exact IHprops].
  - apply Hc.
    induction props as [|[k x] props IHprops]; constructor; [apply IH | exact IHprops].
  - apply Hf, IH.
  - apply Hr.
Qed.

Lemma lookup_prop_Forall (P : value -> Prop) k props :
  P VUndefined -> Forall (fun kv => P kv.2) props -> P (lookup_prop k props).
Proof.
  intros Hu Hall. induction Hall as [|[k' x] props Hx _ IH]; simpl; [exact Hu|].
  destruct (String.eqb k' k); [exact Hx | exact IH].
Qed.

Ltac calm_now :=
  unfold calm, trace, outcome; simpl;
  split; [|split]; simpl;
  [ intros; first [reflexivity | discriminate] | lia | reflexivity ].

Lemma calm_continue : calm (continue : M (option Channel)).
Proof. calm_now. Qed.

Lemma calm_findChannelByID this c : calm (returns (findChannelByID this c)).
Proof.
  unfold findChannelByID.
  destruct (extractID c "channelID") as [id|e]; [|calm_now].
  rewrite bind_lift. unfold returns, tell, lift, bind.
  destruct (channelRead (API this) id) as [raw|e]; [|calm_now].
  destruct (newChannel raw); calm_now.
Qed.

Lemma resolveChannel_single this x :
  resolveChannel this [x] =
  (Awaited x :: trace (turn this x),
   match outcome (turn this x) with
   | inl (Some ch) => inl ch
   | inl None => inr genericError
   | inr e => inr e
   end).
Proof.
  rewrite resolveChannel_cons, bind_tell.
  destruct (turn this x) as [t [[ch|]|e]]; unfold bind, ret, trace, outcome;
    simpl; rewrite ?app_nil_r; reflexivity.
Qed.

Lemma calm_nested this x :
  calm (turn this x) -> calm (returns (resolveChannel this [x])).
Proof.
  intros (Hnone & Hone & Hreads). rewrite resolveChannel_single.
  destruct (turn this x) as [t [[ch|]|e]]; unfold returns, bind, ret, calm,
    trace, outcome in *; simpl in *; rewrite ?app_nil_r;
    repeat split; try discriminate; auto.
Qed.

Lemma calm_turn this c : calm (turn this c).
Proof.
  induction c using value_nested_ind.
  - rewrite turn_unfold. exact calm_continue.
  - rewrite turn_unfold. exact calm_continue.
  - rewrite turn_unfold. simpl. unfold settled_turn. simpl.
    destruct b; exact calm_continue.
  - rewrite turn_unfold. simpl. unfold settled_turn. simpl.
    destruct (negb (n =? 0)%Z); exact calm_continue.
  - rewrite turn_unfold. simpl. unfold settled_turn.
    destruct (negb (truthy (VString s))); [exact calm_continue|].
    cbn [is_id_string typeof_object negb].
    destruct (IsCortezaID s); [apply calm_findChannelByID | exact calm_continue].
  - rewrite turn_unfold. simpl. unfold settled_turn. simpl. calm_now.
  - rewrite turn_unfold. cbn [await]. unfold settled_turn.
    cbn [truthy negb is_id_string typeof_object getProp].
    apply calm_nested.
    apply (lookup_prop_Forall (fun x => calm (turn this x))); [|assumption].
    rewrite turn_unfold. exact calm_continue.
  - rewrite turn_unfold. simpl. unfold settled_turn. simpl. calm_now.
  - rewrite turn_unfold. simpl. rewrite <- turn_unfold. assumption.
  - rewrite turn_unfold. simpl. calm_now.
Qed.

(** X10. Whatever the candidates, [resolveChannel] sends at most one
    request to the remote API, and never one that creates or updates a
    channel. *)
Theorem resolveChannel_one_request this args :
  length (List.filter is_request (trace (resolveChannel this args))) <= 1
  /\ forallb reads_only (trace (resolveChannel this args)) = true.
Proof.
  induction args as [|c rest [IHone IHreads]].
  - split; simpl; [lia | reflexivity].
  - rewrite resolveChannel_cons, bind_tell.
    destruct (calm_turn this c) as (Hnone & Hone & Hreads).
    destruct (turn this c) as [t [[ch|]|e]];
      unfold bind, ret, trace, outcome in *; simpl in *.
    + rewrite app_nil_r. split; assumption.
    + rewrite (Hnone eq_refl).
      destruct (resolveChannel this rest) as [t' r']. simpl in *.
      split; assumption.
    + split; assumption.
Qed.

End Lookups.


(** ** [mapR] and property assignment *)

Section Containers.

Lemma mapR_Forall2 {A B} (f : A -> result B) (l : list A) (ys : list B) :
  Compose.mapR f l = inl ys -> Forall2 (fun x y => f x = inl y) l ys.
Proof.
  revert ys. induction l as [|x l IH]; simpl; intros ys Hm.
  - inversion Hm. constructor.
  - destruct (f x) as [y|e] eqn:Hx; [|discriminate].
    destruct (Compose.mapR f l) as [ys'|e]; [|discriminate].
    inversion Hm; subst. constructor; [exact Hx | apply IH; reflexivity].
Qed.

Lemma mapR_length {A B} (f : A -> result B) (l : list A) (ys : list B) :
  Compose.mapR f l = inl ys -> length ys = length l.
Proof. intros Hm. symmetry. eapply Forall2_length, mapR_Forall2, Hm. Qed.

Lemma lookup_assign_eq k v props : lookup_prop k (assign_prop k v props) = v.
Proof.
  induction props as [|[k' v'] props IH]; simpl.
  - rewrite String.eqb_refl. reflexivity.
  - destruct (String.eqb k' k) eqn:Hk; simpl.
    + rewrite String.eqb_refl. reflexivity.
    + rewrite Hk. exact IH.
Qed.

Lemma lookup_assign_ne k k' v props :
  k' <> k -> lookup_prop k' (assign_prop k v props) = lookup_prop k' props.
Proof.
  intros Hne. induction props as [|[k0 v0] props IH]; simpl.
  - destruct (String.eqb_spec k k'); [congruence | reflexivity].
  - destruct (String.eqb_spec k0 k) as [->|Hk0]; simpl.
    + destruct (String.eqb_spec k k'); [congruence | reflexivity].
    + destruct (String.eqb k0 k'); [reflexivity | exact IH].
Qed.

End Containers.

(** ** [findChannels] *)

Section Finding.
Context `{!ChannelClass}.

(** X11. [findChannels] sends its one list request and rejects with
    [channel not found] when the [set] of the answer is not an array or
    is empty. *)
Theorem findChannels_not_found api filter res :
  channelList api (as_filter filter) = inl res ->
  res <> VUndefined -> res <> VNull ->
  (forall m ms, getProp res "set" <> VArray (m :: ms)) ->
  findChannels api filter = ([ChannelList (as_filter filter)], inr notFound).
Proof.
  intros Hres Hu Hn Hset. unfold findChannels. cbv zeta. rewrite Hres.
  unfold tellC, liftR, bindC, throwC.
  destruct res; try congruence; try reflexivity;
    (destruct (getProp _ "set") as [ | | | | | [|m ms] | | | | ] eqn:Hs;
     try reflexivity; exfalso; eapply Hset; reflexivity).
Qed.

(** X12. When the [set] of the answer is a non-empty array and every
    element constructs a [Channel], [findChannels] resolves to the
    answer with its [set] replaced by these channels: as many as the
    answer listed, in its order, and every other property of the answer
    as it was. *)
Theorem findChannels_found api filter res items chans :
  channelList api (as_filter filter) = inl res ->
  getProp res "set" = VArray items ->
  items <> [] ->
  Compose.mapR newChannel items = inl chans ->
  let found := setProp res "set" (VArray (map VChannel chans)) in
  findChannels api filter = ([ChannelList (as_filter filter)], inl found)
  /\ getProp found "set" = VArray (map VChannel chans)
  /\ length chans = length items
  /\ Forall2 (fun raw ch => newChannel raw = inl ch) items chans
  /\ (forall k, k <> "set" -> getProp found k = getProp res k).
Proof.
  intros Hres Hset Hne Hmap found.
  split; [|split; [|split; [|split]]].
  - unfold findChannels. cbv zeta. rewrite Hres.
    unfold tellC, liftR, bindC, retC.
    destruct res; try discriminate; rewrite Hset;
      (destruct items as [|m ms]; [congruence|]); rewrite Hmap; reflexivity.
  - subst found. destruct res; try discriminate; simpl; apply lookup_assign_eq.
  - eapply mapR_length, Hmap.
  - apply mapR_Forall2, Hmap.
  - intros k Hk. subst found.
    destruct res; try reflexivity; simpl; apply lookup_assign_ne; exact Hk.
Qed.

End Finding.

(** ** [sendMessage] *)

Section Sending.
Context `{!Cast, !Shared, !ChannelClass, !MessageClass}.
Implicit Types (this : MessagingHelper) (api : MessagingAPIMore).

Lemma bindC_ret {A B} (a : A) (k : A -> C B) : (x <-- retC a ;; k x) = k a.
Proof. unfold bindC, retC. destruct (k a). reflexivity. Qed.

Lemma bindC_inl {A B} (m : C A) (k : A -> C B) (t : list call) (a : A) :
  m = (t, inl a) -> bindC m k = (t ++ fst (k a), snd (k a)).
Proof. intros ->. unfold bindC. destruct (k a). reflexivity. Qed.

Ltac step_inl :=
  match goal with
  | |- context [bindC ?m ?k] =>
      lazymatch m with
      | (?t, inl ?a) => rewrite (bindC_inl m k t a eq_refl); cbv beta
      end
  end.

(** [sendMessage] to what is no [User]: the resolution, then the message. *)
Lemma sendMessage_resolved this api message ch t c :
  isUser ch = false ->
  resolveChannel this [ch; channel this] = (t, inl c) ->
  sendMessage this api message ch =
  match newMessage (as_message message) with
  | inl _ =>
      (map Helper t ++ [MessageCreate (kv message)],
       match messageCreate api (kv message) with
       | inl sent => newMessage sent
       | inr e => inr e
       end)
  | inr e => (map Helper t, inr e)
  end.
Proof.
  intros Hu Hr. unfold sendMessage. rewrite Hu, bindC_ret, Hr.
  unfold liftM, liftR, tellC, bindC. simpl.
  destruct (newMessage (as_message message)) as [m|e]; simpl;
    [|rewrite app_nil_r; reflexivity].
  destruct (messageCreate api (kv message)) as [sent|e]; simpl; [|reflexivity].
  destruct (newMessage sent); reflexivity.
Qed.


(** X14. The channel argument overrides the channel of the context: when
    the argument alone resolves, the steps of [sendMessage] are those of
    resolving it, followed by the creation of the message; the channel of
    the context is not awaited. *)
Theorem sendMessage_explicit_channel this api message ch m :
  isUser ch = false ->
  (exists c, outcome (resolveChannel this [ch]) = inl c) ->
  newMessage (as_message message) = inl m ->
  fst (sendMessage this api message ch)
  = map Helper (trace (resolveChannel this [ch]))
      ++ [MessageCreate (kv message)].
Proof.
  intros Hu [c Hc] Hm.
  destruct (resolveChannel this [ch]) as [t r] eqn:E. simpl in Hc. subst r.
  rewrite (sendMessage_resolved this api message ch t c Hu
             (resolved_head this ch [channel this] t c E)), Hm.
  reflexivity.
Qed.

(** X15. The channel of the context is the fallback: when the channel
    argument is walked past and the context holds a [Channel], the
    message is created and the call settles as the request and
    [new Message] of its answer do. *)
Theorem sendMessage_context_channel this api message ch c m :
  isUser ch = false ->
  skipped ch = true ->
  await (channel this) = inl (VChannel c) ->
  newMessage (as_message message) = inl m ->
  sendMessage this api message ch
  = ([Helper (Awaited ch); Helper (Awaited (channel this));
      MessageCreate (kv message)],
     match messageCreate api (kv message) with
     | inl sent => newMessage sent
     | inr e => inr e
     end).
Proof.
  intros Hu Hch Hctx Hm.
  assert (Hr : resolveChannel this [ch; channel this]
               = ([Awaited ch; Awaited (channel this)], inl c)).
  { rewrite (skipped_step this ch [channel this] Hch).
    rewrite resolveChannel_unfold, bind_tell, Hctx. reflexivity. }
  rewrite (sendMessage_resolved this api message ch _ c Hu Hr), Hm.
  reflexivity.
Qed.

(** X16. A message to a [User] goes through the direct channel: when
    [directChannel] rejects (a message to oneself, a user [extractID]
    rejects, a failed save), [sendMessage] rejects with the same error
    and creates no message. *)
Theorem sendMessage_direct_rejected this api message ch t e :
  isUser ch = true ->
  directChannel this ch VUndefined = (t, inr e) ->
  sendMessage this api message ch = (map Helper t, inr e).
Proof.
  intros Hu Hd. unfold sendMessage. rewrite Hu, Hd. reflexivity.
Qed.

Lemma filter_Helper (t : list event) :
  List.filter creates_message (map Helper t) = [].
Proof. induction t as [|ev t IH]; simpl; [reflexivity | exact IH]. Qed.

(** X17. [sendMessage] creates at most one message, and the payload of
    its request is [kv(message)] whatever channel was resolved: the
    identifier of the channel is not added to it. *)
Theorem sendMessage_payload this api message ch :
  List.filter creates_message (fst (sendMessage this api message ch)) = []
  \/ List.filter creates_message (fst (sendMessage this api message ch))
     = [MessageCreate (kv message)].
Proof.
  unfold sendMessage.
  set (first :=
    if isUser ch
    then c <-- liftM (directChannel this ch VUndefined) ;; retC (VChannel c)
    else retC ch).
  assert (Hfirst : exists t r, first = (map Helper t, r)).
  { subst first. destruct (isUser ch); [|exists [], (inl ch); reflexivity].
    destruct (directChannel this ch VUndefined) as [t [c|e]];
      [exists t, (inl (VChannel c)) | exists t, (inr e)];
      unfold liftM, bindC, retC; simpl; rewrite ?app_nil_r; reflexivity. }
  clearbody first. destruct Hfirst as (t1 & r1 & ->).
  destruct r1 as [ch'|e]; [step_inl | left; apply filter_Helper].
  cbn [fst snd]. rewrite List.filter_app, filter_Helper. cbn [app].
  destruct (resolveChannel this [ch'; channel this]) as [t2 [c|e]];
    unfold liftM; cbn [fst snd]; [step_inl | left; apply filter_Helper].
  cbn [fst snd]. rewrite List.filter_app, filter_Helper. cbn [app].
  destruct (newMessage (as_message message)) as [m|e];
    unfold liftR at 1; [step_inl | left; reflexivity].
  cbn [fst snd app]. unfold tellC. step_inl. cbn [fst snd app].
  right. destruct (messageCreate api (kv message)) as [sent|e];
    unfold liftR at 1; [step_inl|]; reflexivity.
Qed.

End Sending.


(** ** The properties on the reference instances *)

Section OnSample.
#[local] Existing Instance Sample.cast.
#[local] Existing Instance Sample.shared.
#[local] Existing Instance Sample.channels.
#[local] Existing Instance SampleMore.messages.


Lemma saveChannel_one_request_witness :
  await (VFulfilled (VObject [("channelID", VString "7")]))
  = inl (VObject [("channelID", VString "7")])
  /\ trace (saveChannel Sample.helper
              (VFulfilled (VObject [("channelID", VString "7")])))
     = [ChannelUpdate (VObject [("channelID", VString "7")])].
Proof.
  split; [reflexivity|].
  rewrite (saveChannel_one_request Sample.helper
             (VFulfilled (VObject [("channelID", VString "7")]))
             (VObject [("channelID", VString "7")]));
    [reflexivity | reflexivity | discriminate | discriminate].
Defined.

Lemma saveChannel_unusable_witness :
  saveChannel Sample.helper (VRejected (Error "offline"))
  = ([], inr (Error "offline"))
  /\ trace (saveChannel Sample.helper (VFulfilled VNull)) = [].
Proof.
  destruct (saveChannel_unusable Sample.helper (VRejected (Error "offline")))
    as [Hrejected _].
  destruct (saveChannel_unusable Sample.helper (VFulfilled VNull)) as [_ Hnull].
  split; [apply Hrejected; reflexivity|].
  apply Hnull. right. reflexivity.
Defined.

Lemma directChannel_distinct_witness :
  extractID (VString "41") "userID" = inl "41"
  /\ extractID (second_or_default Sample.helper VUndefined) "userID" = inl "42"
  /\ "41" <> "42"
  /\ trace (directChannel Sample.helper (VString "41") VUndefined)
     = [ChannelCreate
          (VObject [("type", VString "group");
                    ("members", VArray [VString "41"; VString "42"])])].
Proof.
  split; [reflexivity|]. split; [reflexivity|]. split; [discriminate|].
  pose proof (directChannel_distinct Sample.helper (VString "41") VUndefined
                "41" "42") as Hdirect.
  cbv zeta in Hdirect.
  destruct Hdirect as [_ Htrace]; [reflexivity | reflexivity | discriminate |].
  rewrite Htrace. reflexivity.
Defined.

Lemma directChannel_invalid_user_witness :
  directChannel Sample.helper (VString "someone") (VString "42")
  = ([], inr (Error "unexpected value format for userID"))
  /\ directChannel Sample.helper (VString "41") (VNumber 42)
     = ([], inr (Error "unexpected value type for userID")).
Proof.
  destruct (directChannel_invalid_user Sample.helper (VString "someone")
              (VString "42")) as [Hfirst _].
  destruct (directChannel_invalid_user Sample.helper (VString "41")
              (VNumber 42)) as [_ Hsecond].
  split; [apply Hfirst; reflexivity | apply (Hsecond "41"); reflexivity].
Defined.

Lemma resolveChannel_instance_witness :
  forallb skipped [VUndefined] = true
  /\ await (VChannel Sample.chan7) = inl (VChannel Sample.chan7)
  /\ resolveChannel Sample.helper
       ([VUndefined] ++ VChannel Sample.chan7 :: [Sample.candB])
     = ([Awaited VUndefined; Awaited (VChannel Sample.chan7)], inl Sample.chan7).
Proof.
  split; [reflexivity|]. split; [reflexivity|].
  apply (resolveChannel_instance Sample.helper [VUndefined]
           (VChannel Sample.chan7) Sample.chan7 [Sample.candB]); reflexivity.
Defined.

Lemma resolveChannel_rejected_candidate_witness :
  forallb skipped [VString "general"] = true
  /\ await (VRejected (Error "offline")) = inr (Error "offline")
  /\ resolveChannel Sample.helper
       ([VString "general"] ++ VRejected (Error "offline") :: [Sample.candA])
     = ([Awaited (VString "general"); Awaited (VRejected (Error "offline"))],
        inr (Error "offline")).
Proof.
  split; [reflexivity|]. split; [reflexivity|].
  apply (resolveChannel_rejected_candidate Sample.helper [VString "general"]
           (VRejected (Error "offline")) (Error "offline") [Sample.candA]);
    reflexivity.
Defined.

Lemma resolveChannel_awaits_witness :
  await (VFulfilled Sample.candA) = inl Sample.candA
  /\ outcome (resolveChannel Sample.helper [VFulfilled Sample.candA; Sample.candB])
     = inl Sample.chan7.
Proof.
  split; [reflexivity|].
  destruct (resolveChannel_awaits Sample.helper (VFulfilled Sample.candA)
              Sample.candA [Sample.candB]) as [Hsame _]; [reflexivity|].
  rewrite Hsame. reflexivity.
Defined.

Lemma resolveChannel_object_id_witness :
  IsCortezaID "" = false
  /\ forallb skipped [VNull] = true
  /\ await Sample.candB = inl (VObject [("channelID", VString "8")])
  /\ await (lookup_prop "channelID" [("channelID", VString "8")])
     = inl (VString "8")
  /\ IsCortezaID "8" = true
  /\ resolveChannel Sample.helper ([VNull] ++ Sample.candB :: [Sample.candA])
     = ([Awaited VNull; Awaited Sample.candB; Awaited (VString "8");
         ChannelRead "8"], inl Sample.chan8).
Proof.
  repeat (split; [reflexivity|]).
  rewrite (resolveChannel_object_id Sample.helper [VNull] Sample.candB
             [("channelID", VString "8")] "8" [Sample.candA]);
    reflexivity.
Defined.

Lemma findChannels_not_found_witness :
  channelList SampleMore.apiMore (as_filter (VString "none"))
  = inl (VObject [("filter", VObject [("query", VString "none")]);
                  ("set", VArray [])])
  /\ findChannels SampleMore.apiMore (VString "none")
     = ([ChannelList (VObject [("query", VString "none")])], inr notFound).
Proof.
  split; [reflexivity|].
  apply (findChannels_not_found SampleMore.apiMore (VString "none")
           (VObject [("filter", VObject [("query", VString "none")]);
                     ("set", VArray [])]));
    [reflexivity | discriminate | discriminate | discriminate].
Defined.

Lemma findChannels_found_witness :
  getProp (VObject [("filter", VObject [("query", VString "all")]);
                    ("set", VArray [VObject Sample.chan7; VObject Sample.chan8])])
    "set" = VArray [VObject Sample.chan7; VObject Sample.chan8]
  /\ Compose.mapR newChannel [VObject Sample.chan7; VObject Sample.chan8]
     = inl [Sample.chan7; Sample.chan8]
  /\ findChannels SampleMore.apiMore (VString "all")
     = ([ChannelList (VObject [("query", VString "all")])],
        inl (VObject [("filter", VObject [("query", VString "all")]);
                      ("set", VArray [VChannel Sample.chan7;
                                      VChannel Sample.chan8])])).
Proof.
  split; [reflexivity|]. split; [reflexivity|].
  destruct (findChannels_found SampleMore.apiMore (VString "all")
              (VObject [("filter", VObject [("query", VString "all")]);
                        ("set", VArray [VObject Sample.chan7; VObject Sample.chan8])])
              [VObject Sample.chan7; VObject Sample.chan8]
              [Sample.chan7; Sample.chan8]) as [Hfound _];
    [reflexivity | reflexivity | discriminate | reflexivity |].
  rewrite Hfound. reflexivity.
Defined.


Lemma sendMessage_explicit_channel_witness :
  isUser Sample.candA = false
  /\ outcome (resolveChannel SampleMore.helper_in_channel [Sample.candA])
     = inl Sample.chan7
  /\ fst (sendMessage SampleMore.helper_in_channel SampleMore.apiMore
            (VString "hello") Sample.candA)
     = [Helper (Awaited Sample.candA); Helper (ChannelRead "7");
        MessageCreate (VString "hello")].
Proof.
  split; [reflexivity|]. split; [reflexivity|].
  rewrite (sendMessage_explicit_channel SampleMore.helper_in_channel
             SampleMore.apiMore (VString "hello") Sample.candA
             (VObject [("message", VString "hello")]));
    [reflexivity | reflexivity | eexists; reflexivity | reflexivity].
Defined.

Lemma sendMessage_context_channel_witness :
  isUser VUndefined = false
  /\ skipped VUndefined = true
  /\ await (channel SampleMore.helper_in_channel) = inl (VChannel Sample.chan8)
  /\ sendMessage SampleMore.helper_in_channel SampleMore.apiMore
       (VString "hello") VUndefined
     = ([Helper (Awaited VUndefined);
         Helper (Awaited (VChannel Sample.chan8));
         MessageCreate (VString "hello")],
        inl (VString "hello")).
Proof.
  repeat (split; [reflexivity|]).
  rewrite (sendMessage_context_channel SampleMore.helper_in_channel
             SampleMore.apiMore (VString "hello") VUndefined Sample.chan8
             (VObject [("message", VString "hello")]));
    reflexivity.
Defined.

Lemma sendMessage_direct_rejected_witness :
  isUser (VObject [("userID", VString "42")]) = true
  /\ directChannel Sample.helper (VObject [("userID", VString "42")]) VUndefined
     = ([], inr selfError)
  /\ sendMessage Sample.helper SampleMore.apiMore (VString "hello")
       (VObject [("userID", VString "42")])
     = ([], inr selfError).
Proof.
  split; [reflexivity|]. split; [reflexivity|].
  apply (sendMessage_direct_rejected Sample.helper SampleMore.apiMore
           (VString "hello") (VObject [("userID", VString "42")]) [] selfError);
    reflexivity.
Defined.

End OnSample.

End MessagingExtra.

(* ===================================================================== *)
(** * Further properties of the compose types *)
(* ===================================================================== *)

Module ComposeExtra.
Import Compose ComposeMore ComposeTheory MessagingExtra.

Ltac unlisted :=
  match goal with
  | H : _ ∉ _ |- _ ∉ _ =>
      let Hin := fresh in
      intros Hin; apply H; revert Hin;
      rewrite !elem_of_cons, !elem_of_nil; tauto
  end.

Section Entities.
Context `{!Cast, !Builtins}.
Implicit Types (t : Fields) (n f r : value) (k : string).

Lemma IsOf_truthy v k : IsOf v k = true -> truthy v = true.
Proof. destruct v; simpl; try discriminate; reflexivity. Qed.

Lemma Namespace_apply_unknown t n k :
  k ∉ Namespace_names -> Namespace_apply t n !! k = t !! k.
Proof.
  intros Hk. unfold Namespace_names in Hk. unfold Namespace_apply.
  destruct (negb (truthy n)); [reflexivity|]. cbv zeta.
  rewrite !Apply_unlisted by unlisted.
  destruct (IsOf n "meta").
  - rewrite lookup_insert_ne.
    + rewrite !Apply_unlisted by unlisted. reflexivity.
    + intros <-. apply Hk. rewrite !elem_of_cons. tauto.
  - rewrite !Apply_unlisted by unlisted. reflexivity.
Qed.

Lemma ModuleField_apply_unknown t f k :
  k ∉ ModuleField_names -> ModuleField_apply t f !! k = t !! k.
Proof.
  intros Hk. unfold ModuleField_names in Hk. unfold ModuleField_apply.
  destruct (negb (truthy f)); [reflexivity|]. cbv zeta.
  assert (Hne : forall k', k' ∈ ModuleField_names -> k' <> k).
  { intros k' Hin ->. apply Hk, Hin. }
  unfold apply_untyped. cbv zeta.
  assert (Htyped : apply_typed t f !! k = t !! k).
  { unfold apply_typed. cbv zeta.
    destruct (truthy (getProp f "defaultValue"));
      [rewrite lookup_insert_ne by (apply Hne; decide_now)|];
      rewrite !Apply_unlisted by unlisted; reflexivity. }
  assert (Haccess : apply_record_value_access (apply_typed t f) f !! k = t !! k).
  { unfold apply_record_value_access, record_value_access.
    destruct (truthy (field (apply_typed t f) "isSystem")).
    - rewrite !lookup_insert_ne by (apply Hne; decide_now). exact Htyped.
    - rewrite Apply_unlisted by unlisted. exact Htyped. }
  destruct (IsOf f "options"), (IsOf f "kind");
    rewrite ?lookup_insert_ne by (apply Hne; decide_now); exact Haccess.
Qed.

(** X18. The fields of a hydrated [PageBlockIFrame.options] are exactly
    [srcField], [src] and [wrap], whatever the input carries: nothing else
    is ever stored, and none of the three is ever lost. *)
Theorem IFrame_options_keys i k :
  is_Some (IFrame_options i !! k) <-> k ∈ ["srcField"; "src"; "wrap"].
Proof.
  unfold IFrame_options, applyOptions.
  set (o := match i with VUndefined | VNull => VUndefined | _ => getProp i "options" end).
  destruct (negb (truthy o)).
  - unfold IFrame_defaults. rewrite !elem_of_cons, elem_of_nil.
    split.
    + intros [v Hv].
      destruct (decide (k = "srcField")); [tauto|].
      destruct (decide (k = "src")); [tauto|].
      destruct (decide (k = "wrap")); [tauto|].
      simpl in Hv. rewrite !lookup_insert_ne in Hv by congruence.
      rewrite lookup_empty in Hv. discriminate.
    + intros [-> | [-> | [-> | []]]]; eexists; reflexivity.
  - split.
    + intros Hsome. destruct (decide (k ∈ ["srcField"; "src"; "wrap"])) as [|Hout];
        [assumption|].
      rewrite Apply_unlisted in Hsome by exact Hout.
      destruct Hsome as [v Hv]. revert Hout. rewrite !elem_of_cons, elem_of_nil.
      intros Hout.
      unfold IFrame_defaults in Hv. simpl in Hv.
      rewrite !lookup_insert_ne in Hv by (intros <-; tauto).
      rewrite lookup_empty in Hv. discriminate.
    + intros Hin.
      destruct (is_undefined (getProp o k)) eqn:Hk.
      * rewrite Apply_absent by (apply is_undefined_true, Hk).
        revert Hin. rewrite !elem_of_cons, elem_of_nil.
        intros [-> | [-> | [-> | []]]]; eexists; reflexivity.
      * unfold coerceString.
        rewrite (Apply_present _ _ JSString) by assumption. eexists; reflexivity.
Qed.

(** X19. [ModuleField.apply] stores [kind] as the source gives it: the
    value converted by [String] at line 50 is overwritten at line 66, so a
    kind that is no string stays what it is. *)
Theorem ModuleField_kind_uncoerced t f :
  IsOf f "kind" = true ->
  ModuleField_apply t f !! "kind" = Some (getProp f "kind").
Proof.
  intros Hkind. unfold ModuleField_apply.
  rewrite (IsOf_truthy _ _ Hkind). cbn [negb]. cbv zeta.
  unfold apply_untyped. cbv zeta. rewrite Hkind.
  destruct (IsOf f "options");
    [rewrite lookup_insert_ne by discriminate|]; apply lookup_insert_eq.
Qed.

(** X20. [ModuleField.apply] assigns [defaultValue] only when the source
    gives a truthy one: a present but falsy [defaultValue] (an empty
    string, [0], [null], [false]) does not reset the field. *)
Theorem ModuleField_defaultValue t f :
  ModuleField_apply t f !! "defaultValue" =
  if truthy (getProp f "defaultValue")
  then Some (getProp f "defaultValue")
  else t !! "defaultValue".
Proof.
  unfold ModuleField_apply.
  destruct (truthy f) eqn:Hf; cbn [negb]; cbv zeta.
  - rewrite apply_untyped_other by discriminate.
    unfold apply_record_value_access.
    assert (Hrva : forall sys (x : Fields),
      record_value_access sys x f !! "defaultValue" = x !! "defaultValue").
    { intros sys x. unfold record_value_access. destruct sys.
      - rewrite !lookup_insert_ne by discriminate. reflexivity.
      - apply Apply_unlisted. decide_now. }
    rewrite Hrva. unfold apply_typed. cbv zeta.
    destruct (truthy (getProp f "defaultValue")); [apply lookup_insert_eq|].
    rewrite !Apply_unlisted by decide_now. reflexivity.
  - replace (getProp f "defaultValue") with VUndefined; [reflexivity|].
    destruct f; try reflexivity; discriminate.
Qed.

Lemma ModuleField_apply_name_absent t f :
  getProp f "name" = VUndefined ->
  ModuleField_apply t f !! "name" = t !! "name".
Proof.
  intros Hk. unfold ModuleField_apply.
  destruct (negb (truthy f)); [reflexivity|]. cbv zeta.
  rewrite apply_untyped_absent by exact Hk.
  unfold apply_record_value_access.
  rewrite record_value_access_absent;
    [apply apply_typed_absent, Hk | exact Hk | right; split; discriminate].
Qed.

Lemma ModuleField_apply_name_present t f :
  truthy f = true ->
  is_undefined (getProp f "name") = false ->
  ModuleField_apply t f !! "name" = Some (JSString (getProp f "name")).
Proof.
  intros Hf Hk. unfold ModuleField_apply. rewrite Hf. cbn [negb]. cbv zeta.
  rewrite apply_untyped_other by discriminate.
  unfold apply_record_value_access, record_value_access.
  assert (Htyped : apply_typed t f !! "name" = Some (JSString (getProp f "name"))).
  { unfold apply_typed. cbv zeta.
    destruct (truthy (getProp f "defaultValue"));
      [rewrite lookup_insert_ne by discriminate|];
      rewrite !(Apply_unlisted _ _ _ _ "name") by decide_now;
      unfold coerceString;
      apply (Apply_present _ _ JSString); [decide_now | exact Hk | decide_now | exact Hk]. }
  destruct (truthy (field (apply_typed t f) "isSystem")).
  - rewrite !lookup_insert_ne by discriminate. exact Htyped.
  - rewrite Apply_unlisted by decide_now. exact Htyped.
Qed.

(** X21. The validity of a module field follows its name: a source
    without [name] leaves [hasValidName] as it was, and a source whose
    [name] is a string that [String] returns as [s] makes the field valid
    exactly when [s] is one or more word characters. *)
Theorem hasValidName_apply t f :
  (getProp f "name" = VUndefined ->
   hasValidName (ModuleField_apply t f) = hasValidName t)
  /\ (forall s, JSString (getProp f "name") = VString s ->
        is_undefined (getProp f "name") = false ->
        hasValidName (ModuleField_apply t f) = FieldNameValidator s).
Proof.
  split.
  - intros Hk. unfold hasValidName, field.
    rewrite ModuleField_apply_name_absent by exact Hk. reflexivity.
  - intros s Hs Hk. unfold hasValidName, field.
    assert (Hf : truthy f = true).
    { destruct f; try discriminate; reflexivity. }
    rewrite ModuleField_apply_name_present by assumption.
    simpl. rewrite Hs. reflexivity.
Qed.

(** X22. [Namespace.apply] replaces [meta] by a copy of the source's
    [meta]; the former [meta] is not merged into it. *)
Theorem Namespace_meta_replaced t n props :
  getProp n "meta" = VObject props ->
  Namespace_apply t n !! "meta" = Some (VObject props).
Proof.
  intros Hm. unfold Namespace_apply.
  assert (Hn : truthy n = true) by (destruct n; try discriminate; reflexivity).
  rewrite Hn. cbn [negb]. cbv zeta.
  rewrite !Apply_unlisted by decide_now.
  rewrite IsOf_getProp, Hm. cbn [is_undefined negb spread].
  apply lookup_insert_eq.
Qed.

End Entities.


Section Pages.
Context `{!Cast, !Builtins, !PageBlockClass}.
Implicit Types (reg : Registry) (p q : Page) (t : Fields) (i : value) (k : string).

Lemma apply_scalars_unknown t i k :
  k ∉ Page_names -> apply_scalars t i !! k = t !! k.
Proof.
  intros Hk. unfold Page_names in Hk. unfold apply_scalars. cbv zeta.
  rewrite !Apply_unlisted by unlisted. reflexivity.
Qed.

Lemma apply_stamps_unknown t i k :
  k ∉ Page_names -> apply_stamps t i !! k = t !! k.
Proof.
  intros Hk. unfold Page_names in Hk. unfold apply_stamps. cbv zeta.
  rewrite !Apply_unlisted by unlisted. reflexivity.
Qed.

(** X23. [apply] stores no unknown field: a name outside of the ones the
    method lists keeps its value (or stays absent) in a page, a namespace
    and a module field, whatever the source carries under that name. *)
Theorem apply_stores_no_unknown_field reg p t r k :
  (k ∉ Page_names -> fields (Page_apply reg p r).1 !! k = fields p !! k)
  /\ (k ∉ Namespace_names -> Namespace_apply t r !! k = t !! k)
  /\ (k ∉ ModuleField_names -> ModuleField_apply t r !! k = t !! k).
Proof.
  split; [|split].
  - intros Hk.
    destruct (Page_apply_with_fields reg (Page_new reg) p r) as [E | [E | E]];
      unfold Page_apply; rewrite E.
    + reflexivity.
    + apply apply_scalars_unknown, Hk.
    + rewrite apply_stamps_unknown by exact Hk. apply apply_scalars_unknown, Hk.
  - apply Namespace_apply_unknown.
  - apply ModuleField_apply_unknown.
Qed.

(** [apply] that raises has stopped before lines 70-75. *)
Lemma Page_apply_with_raised reg mk p i e :
  (Page_apply_with reg mk p i).2 = Some e ->
  fields (Page_apply_with reg mk p i).1 = apply_scalars (fields p) i.
Proof.
  destruct (apply_blocks_shape reg i) as (ub & eb & Hb).
  destruct (apply_children_shape mk i) as (uc & ec & Hc).
  unfold Page_apply_with.
  destruct (negb (truthy i)); [discriminate|]. cbv zeta.
  rewrite Hb. destruct eb; [reflexivity|].
  rewrite Hc. destruct ec; [reflexivity | discriminate].
Qed.

(** X24. When [Page.apply] raises while it constructs blocks or
    sub-pages, the assignments of lines 51-54 have been made and those of
    lines 70-75 have not: the timestamps and the permission flags keep
    their values even where the source carries new ones. *)
Theorem Page_apply_raised_keeps_stamps reg p i e k :
  (Page_apply reg p i).2 = Some e ->
  k ∈ ["createdAt"; "updatedAt"; "deletedAt";
       "canUpdatePage"; "canDeletePage"; "canGrant"] ->
  fields (Page_apply reg p i).1 = apply_scalars (fields p) i
  /\ fields (Page_apply reg p i).1 !! k = fields p !! k.
Proof.
  intros He Hk.
  pose proof (Page_apply_with_raised reg (Page_new reg) p i e He) as E.
  split; [exact E|]. unfold Page_apply. rewrite E.
  unfold apply_scalars. cbv zeta.
  revert Hk. rewrite !elem_of_cons, elem_of_nil.
  intros [-> | [-> | [-> | [-> | [-> | [-> | []]]]]]];
    rewrite !Apply_unlisted by decide_now; reflexivity.
Qed.

Lemma apply_blocks_replaces reg p q i :
  truthy (getProp i "blocks") = true ->
  blocks (apply_blocks reg p i).1 = blocks (apply_blocks reg q i).1.
Proof.
  intros Ht. unfold apply_blocks. cbv zeta. rewrite Ht.
  destruct (AreObjectsOf _ "kind" && AreObjectsOf _ "xywh"); [|reflexivity].
  destruct (getProp i "blocks"); try reflexivity.
  destruct (Compose.mapR _ _); reflexivity.
Qed.

Lemma apply_children_replaces mk p q i :
  truthy (getProp i "children") = true ->
  children (apply_children mk p i).1 = children (apply_children mk q i).1.
Proof.
  intros Ht. rewrite !apply_children_unfold. cbv zeta. rewrite Ht.
  destruct (AreObjectsOf _ "pageID"); [|reflexivity].
  destruct (getProp i "children"); try reflexivity.
  destruct (Compose.mapR _ _); reflexivity.
Qed.

(** X25. [Page.apply] replaces the collections, it does not add to them:
    with a truthy [blocks] in the source the blocks after the call do not
    depend on the blocks before it, and when the call completes the same
    holds of [children]. *)
Theorem Page_apply_replaces_collections reg p q i :
  (truthy (getProp i "blocks") = true ->
   blocks (Page_apply reg p i).1 = blocks (Page_apply reg q i).1)
  /\ (truthy (getProp i "children") = true ->
      (Page_apply reg p i).2 = None ->
      children (Page_apply reg p i).1 = children (Page_apply reg q i).1).
Proof.
  destruct (apply_blocks_shape reg i) as (ub & eb & Hb).
  destruct (apply_children_shape (Page_new reg) i) as (uc & ec & Hc).
  split.
  - intros Ht.
    pose proof (apply_blocks_replaces reg p q i Ht) as Hpq.
    rewrite !Hb in Hpq. cbn [fst blocks] in Hpq.
    unfold Page_apply, Page_apply_with.
    destruct (negb (truthy i)) eqn:Hi.
    { destruct i; try discriminate; simpl in Hi; discriminate. }
    cbv zeta. rewrite !Hb. destruct eb; [exact Hpq|].
    rewrite !Hc. destruct ec; exact Hpq.
  - intros Ht.
    pose proof (apply_children_replaces (Page_new reg) p q i Ht) as Hpq.
    rewrite !Hc in Hpq. cbn [fst children] in Hpq.
    unfold Page_apply, Page_apply_with.
    destruct (negb (truthy i)) eqn:Hi.
    { destruct i; try discriminate; simpl in Hi; discriminate. }
    cbv zeta. rewrite !Hb. destruct eb; [discriminate|].
    rewrite !Hc. destruct ec; [discriminate|]. intros _. exact Hpq.
Qed.

(** X26. With every element of the source's [blocks] carrying [kind] and
    [xywh], [Page.apply] constructs one block per element, in the order of
    the source, each by [PageBlockMaker]; if one construction fails the
    call raises its error and leaves [blocks] empty. *)
Theorem Page_apply_blocks_in_order reg p i items :
  getProp i "blocks" = VArray items ->
  AreObjectsOf (VArray items) "kind" && AreObjectsOf (VArray items) "xywh" = true ->
  match Compose.mapR (PageBlockMaker reg) items with
  | inl bs =>
      blocks (Page_apply reg p i).1 = bs
      /\ length bs = length items
      /\ Forall2 (fun raw b => PageBlockMaker reg raw = inl b) items bs
  | inr e =>
      blocks (Page_apply reg p i).1 = []
      /\ (Page_apply reg p i).2 = Some e
  end.
Proof.
  intros Hb Hguard.
  assert (Hi : truthy i = true) by (destruct i; try discriminate; reflexivity).
  destruct (apply_children_shape (Page_new reg) i) as (uc & ec & Hc).
  unfold Page_apply, Page_apply_with. rewrite Hi. cbn [negb]. cbv zeta.
  unfold apply_blocks. cbv zeta. rewrite Hb. cbn [truthy]. rewrite Hguard.
  destruct (Compose.mapR (PageBlockMaker reg) items) as [bs|e] eqn:Hm.
  - split; [|split].
    + rewrite Hc. destruct ec; reflexivity.
    + eapply mapR_length, Hm.
    + apply mapR_Forall2, Hm.
  - split; reflexivity.
Qed.

(** X27. The sub-pages of a hydrated page are new pages: when the call
    completes and every element of the source's [children] carries
    [pageID], there is one sub-page per element, in the order of the
    source, each the page that [new Page] makes of that element alone. *)
Theorem Page_apply_children_hydrated reg p i items :
  getProp i "children" = VArray items ->
  AreObjectsOf (VArray items) "pageID" = true ->
  (Page_apply reg p i).2 = None ->
  exists cs,
    children (Page_apply reg p i).1 = Some cs
    /\ length cs = length items
    /\ Forall2 (fun raw c => Page_new reg raw = inl c) items cs.
Proof.
  intros Hch Hguard.
  assert (Hi : truthy i = true) by (destruct i; try discriminate; reflexivity).
  destruct (apply_blocks_shape reg i) as (ub & eb & Hb).
  unfold Page_apply, Page_apply_with. rewrite Hi. cbn [negb]. cbv zeta.
  rewrite Hb. destruct eb; [discriminate|].
  rewrite apply_children_unfold. cbv zeta. rewrite Hch. cbn [truthy].
  rewrite Hguard.
  destruct (Compose.mapR (Page_new reg) items) as [cs|e] eqn:Hm; [|discriminate].
  intros _. exists cs. split; [reflexivity|]. split.
  - eapply mapR_length, Hm.
  - apply mapR_Forall2, Hm.
Qed.

Lemma foldl_validate (ee : list string) (bs : list PageBlock) :
  foldl (fun ee b => ee ++ PageBlock_validate b) ee bs
  = ee ++ concat (map PageBlock_validate bs).
Proof.
  revert ee. induction bs as [|b bs IH]; intros ee; simpl.
  - rewrite app_nil_r. reflexivity.
  - rewrite IH, app_assoc. reflexivity.
Qed.

(** X28. [Page.validate] returns the messages of the blocks, block after
    block, and a page validates without a message exactly when each of
    its blocks does. *)
Theorem Page_validate_messages p :
  Page_validate p = concat (map PageBlock_validate (blocks p))
  /\ (Page_validate p = [] <->
      Forall (fun b => PageBlock_validate b = []) (blocks p)).
Proof.
  assert (E : Page_validate p = concat (map PageBlock_validate (blocks p))).
  { unfold Page_validate. rewrite foldl_validate. reflexivity. }
  split; [exact E|]. rewrite E. clear E.
  generalize (blocks p). intros bs.
  induction bs as [|b bs [IH1 IH2]]; simpl.
  - split; [constructor | reflexivity].
  - split.
    + intros Happ. apply app_eq_nil in Happ as [Hb Hbs].
      constructor; [exact Hb | exact (IH1 Hbs)].
    + intros Hall. inversion Hall as [|? ? Hb Hbs]; subst.
      rewrite Hb. exact (IH2 Hbs).
Qed.

End Pages.


(** ** The properties on the reference instances *)

Section OnSample.
#[local] Existing Instance Sample.cast.
#[local] Existing Instance Sample.builtins.
#[local] Existing Instance Sample.pageBlocks.

Lemma ModuleField_kind_uncoerced_witness :
  IsOf SampleSources.kind_source "kind" = true
  /\ ModuleField_new SampleSources.kind_source !! "kind" = Some (VNumber 5)
  /\ JSString (VNumber 5) = VString "5".
Proof.
  split; [reflexivity|]. split; [|reflexivity].
  unfold ModuleField_new.
  rewrite (ModuleField_kind_uncoerced ModuleField_default
             SampleSources.kind_source); reflexivity.
Defined.

Lemma hasValidName_apply_witness :
  hasValidName (ModuleField_new SampleSources.kind_source) = false
  /\ hasValidName (ModuleField_new SampleSources.name_source) = true.
Proof.
  unfold ModuleField_new.
  destruct (hasValidName_apply ModuleField_default SampleSources.kind_source)
    as [Habsent _].
  destruct (hasValidName_apply ModuleField_default SampleSources.name_source)
    as [_ Hpresent].
  rewrite Habsent by reflexivity.
  rewrite (Hpresent "first_name") by reflexivity.
  split; reflexivity.
Defined.

Lemma Namespace_meta_replaced_witness :
  Namespace_default !! "meta" = Some (VObject [])
  /\ Namespace_apply (<["meta" := VObject [("logo", VString "l")]]> Namespace_default)
       SampleSources.meta_source !! "meta"
     = Some (VObject [("subtitle", VString "x")]).
Proof.
  split; [reflexivity|].
  apply (Namespace_meta_replaced
           (<["meta" := VObject [("logo", VString "l")]]> Namespace_default)
           SampleSources.meta_source [("subtitle", VString "x")]).
  reflexivity.
Defined.

Lemma apply_stores_no_unknown_field_witness :
  fields (Page_apply Sample.registry Page_default
            (VObject [("colour", VString "red")])).1 !! "colour" = None
  /\ Namespace_apply Namespace_default
       (VObject [("colour", VString "red")]) !! "colour" = None
  /\ ModuleField_apply ModuleField_default
       (VObject [("colour", VString "red")]) !! "colour" = None.
Proof.
  destruct (apply_stores_no_unknown_field Sample.registry Page_default
              Namespace_default (VObject [("colour", VString "red")]) "colour")
    as (Hpage & Hnamespace & _).
  destruct (apply_stores_no_unknown_field Sample.registry Page_default
              ModuleField_default (VObject [("colour", VString "red")]) "colour")
    as (_ & _ & Hfield).
  rewrite Hpage, Hnamespace, Hfield
    by (unfold Page_names, Namespace_names, ModuleField_names; decide_now).
  repeat split.
Defined.

Lemma Page_apply_raised_keeps_stamps_witness :
  (Page_apply Sample.registry Page_default SampleSources.failing_source).2
  = Some unknownKind
  /\ getProp SampleSources.failing_source "createdAt" = VString "2020-01-01"
  /\ fields (Page_apply Sample.registry Page_default
               SampleSources.failing_source).1 !! "title" = Some (VString "T")
  /\ fields (Page_apply Sample.registry Page_default
               SampleSources.failing_source).1 !! "createdAt" = Some VUndefined.
Proof.
  split; [reflexivity|]. split; [reflexivity|].
  destruct (Page_apply_raised_keeps_stamps Sample.registry Page_default
              SampleSources.failing_source unknownKind "createdAt")
    as [Hscalars Hstamp]; [reflexivity | set_solver |].
  rewrite Hstamp. split; [|reflexivity].
  rewrite Hscalars. reflexivity.
Defined.

Lemma Page_apply_replaces_collections_witness :
  blocks (Page_apply Sample.registry
            Sample.three_blocks
            SampleSources.blocks_source).1
  = [SampleSources.blockA; SampleSources.blockB].
Proof.
  destruct (Page_apply_replaces_collections Sample.registry
              Sample.three_blocks Page_default
              SampleSources.blocks_source) as [Hblocks _].
  rewrite Hblocks by reflexivity. reflexivity.
Defined.

Lemma Page_apply_blocks_in_order_witness :
  getProp SampleSources.blocks_source "blocks"
  = VArray [SampleSources.blockA; SampleSources.blockB]
  /\ blocks (Page_apply Sample.registry Page_default
               SampleSources.blocks_source).1
     = [SampleSources.blockA; SampleSources.blockB].
Proof.
  split; [reflexivity|].
  pose proof (Page_apply_blocks_in_order Sample.registry Page_default
                SampleSources.blocks_source
                [SampleSources.blockA; SampleSources.blockB]
                eq_refl eq_refl) as Hblocks.
  exact (proj1 Hblocks).
Defined.

Lemma Page_apply_children_hydrated_witness :
  getProp SampleSources.children_source "children"
  = VArray [SampleSources.childA; SampleSources.childB]
  /\ exists a b,
       children (Page_apply Sample.registry Page_default
                   SampleSources.children_source).1 = Some [a; b]
       /\ Page_new Sample.registry SampleSources.childA = inl a
       /\ Page_new Sample.registry SampleSources.childB = inl b.
Proof.
  split; [reflexivity|].
  destruct (Page_apply_children_hydrated Sample.registry Page_default
              SampleSources.children_source
              [SampleSources.childA; SampleSources.childB])
    as (cs & Hcs & Hlen & Hall); [reflexivity | reflexivity | reflexivity |].
  destruct cs as [|a [|b [|c cs]]]; try discriminate Hlen.
  exists a, b. split; [exact Hcs|].
  inversion Hall as [|? ? ? ? Ha Hrest]; subst.
  inversion Hrest as [|? ? ? ? Hb _]; subst.
  split; [exact Ha | exact Hb].
Defined.

End OnSample.

End ComposeExtra.

(** * The reminder feed of the calendar block
    ([compose/types/page-block/calendar/feed-reminder.ts]) *)

Module FeedExtra.
Import Feed.

Section Reminders.
Context `{!FeedShared}.

(** X29. For a valid range and an answering API, [ReminderFeed] sends one
    request, for the reminders scheduled in the range and assigned to the
    user, and resolves to one event per reminder of the answer, in its
    order: the event carries the identifier and the time of its reminder
    and the colours [makeColors] gives for the colour of the feed, which
    is the colour the feed had or, where it had none, the default
    [#568ba2], which the feed is left with. *)
Theorem ReminderFeed_events reminderList userID color range_start range_end
  from until set :
  toISOString range_start = inl from ->
  toISOString range_end = inl until ->
  let request := {| perPage := 0; scheduledFrom := from; scheduledUntil := until;
                    scheduledOnly := true; excludeDismissed := true;
                    req_assignedTo := userID |} in
  reminderList request = inl set ->
  let run := ReminderFeed reminderList userID color range_start range_end in
  requests run = [request]
  /\ feed_color run = (if truthy color then color else VString "#568ba2")
  /\ truthy (feed_color run) = true
  /\ exists evs,
       events run = inl evs
       /\ map id evs = map reminderID (default [] set)
       /\ map start evs = map remindAt (default [] set)
       /\ Forall (fun ev =>
            extendedProps_reminderID ev = id ev
            /\ backgroundColor ev = colors_background (makeColors (feed_color run))
            /\ borderColor ev = colors_border (makeColors (feed_color run))) evs.
Proof.
  intros Hfrom Huntil request Hset run.
  subst run. unfold ReminderFeed. rewrite Hfrom, Huntil.
  fold request. rewrite Hset. cbn [requests feed_color events].
  split; [reflexivity|]. split; [reflexivity|]. split.
  { unfold or_else. destruct (truthy color) eqn:E; [exact E | reflexivity]. }
  eexists. split; [reflexivity|].
  rewrite !map_map. cbn [id start event_of].
  split; [reflexivity|]. split; [reflexivity|].
  induction (default [] set) as [|r rs IH]; constructor;
    [repeat split | exact IH].
Qed.

(** X30. The class names of an event start with [event] and
    [event-reminder]; [event-not-owner] is among them exactly for a
    reminder assigned to somebody else, and exactly one of [text-dark]
    and [text-white] is, as [isLight] says. *)
Theorem event_classNames color userID r :
  let names := classNames (event_of color userID r) in
  take 2 names = ["event"; "event-reminder"]
  /\ ("event-not-owner" ∈ names <-> assignedTo r <> userID)
  /\ ("text-dark" ∈ names <-> isLight (makeColors color) = true)
  /\ ("text-white" ∈ names <-> isLight (makeColors color) = false).
Proof.
  cbn [classNames event_of]. unfold classNames_of.
  destruct (String.eqb_spec (assignedTo r) userID) as [Heq|Hne];
    destruct (isLight (makeColors color)); cbn [negb app take];
    (split; [reflexivity|]);
    rewrite ?elem_of_cons, ?elem_of_nil;
    repeat split; intros; try tauto; try congruence;
    repeat match goal with
           | H : _ \/ _ |- _ => destruct H
           | H : False |- _ => destruct H
           end; try discriminate; try congruence; try tauto.
Qed.

End Reminders.

Section OnSample.
#[local] Existing Instance SampleMore.feedShared.

Lemma ReminderFeed_events_witness :
  toISOString (VString "2020-01-01") = inl "2020-01-01"
  /\ toISOString (VString "2020-02-01") = inl "2020-02-01"
  /\ feed_color (ReminderFeed
                   (fun _ => inl (Some [SampleMore.reminder1;
                                        SampleMore.reminder2]))
                   "42" (VString "") (VString "2020-01-01")
                   (VString "2020-02-01")) = VString "#568ba2"
  /\ feed_color (ReminderFeed
                   (fun _ => inl (Some [SampleMore.reminder1;
                                        SampleMore.reminder2]))
                   "42" (VString "#ffffff") (VString "2020-01-01")
                   (VString "2020-02-01")) = VString "#ffffff"
  /\ (exists evs,
        events (ReminderFeed
                  (fun _ => inl (Some [SampleMore.reminder1;
                                       SampleMore.reminder2]))
                  "42" (VString "") (VString "2020-01-01")
                  (VString "2020-02-01")) = inl evs
        /\ map id evs = ["1"; "2"]
        /\ map backgroundColor evs = [VString "#568ba2"; VString "#568ba2"]).
Proof.
  split; [reflexivity|]. split; [reflexivity|].
  destruct (ReminderFeed_events
              (fun _ => inl (Some [SampleMore.reminder1; SampleMore.reminder2]))
              "42" (VString "") (VString "2020-01-01") (VString "2020-02-01")
              "2020-01-01" "2020-02-01"
              (Some [SampleMore.reminder1; SampleMore.reminder2]))
    as (_ & Hdefault & _ & evs & Hevs & Hids & _ & Hcolours);
    [reflexivity | reflexivity | reflexivity |].
  destruct (ReminderFeed_events
              (fun _ => inl (Some [SampleMore.reminder1; SampleMore.reminder2]))
              "42" (VString "#ffffff") (VString "2020-01-01")
              (VString "2020-02-01") "2020-01-01" "2020-02-01"
              (Some [SampleMore.reminder1; SampleMore.reminder2]))
    as (_ & Hgiven & _); [reflexivity | reflexivity | reflexivity |].
  split; [rewrite Hdefault; reflexivity|].
  split; [rewrite Hgiven; reflexivity|].
  exists evs. split; [exact Hevs|]. split; [exact Hids|].
  rewrite Hdefault in Hcolours.
  destruct evs as [|a [|b [|c evs]]]; try discriminate Hids.
  inversion Hcolours as [|? ? (_ & Ha & _) Hrest]; subst.
  inversion Hrest as [|? ? (_ & Hb & _) _]; subst.
  cbn [map]. rewrite Ha, Hb. reflexivity.
Defined.

End OnSample.

End FeedExtra.
